(** * Guest-experience plugin: fulfilment orchestration

    A shallow embedding of the upsell order service
    (services/upsell.service.ts), of the three provider clients
    (services/integrations/{uber,doordash,instacart}.service.ts), of the
    webhook routes (routes/upsell.routes.ts), of the order controller and
    of the service-request service with its controller, with the
    properties of the fulfilment-orchestration specification stated and
    proved over it.

    Conventions of the embedding:
    - a JavaScript [number] is an IEEE-754 binary64 value, i.e. a primitive
      [float]; counters and millisecond timestamps, which only ever hold
      integers, are [Z];
    - an optional property ([x?: T], or a value that may be [undefined]) is an
      [option];
    - a thrown [Error] is its message;
    - Redis, the wall clock, [uuidv4] and the remote provider APIs are the
      environment: a finite map, and functions the definitions are
      parameterised by;
    - an order is in Redis as the text [JSON.stringify] makes of it, and
      is read back with [JSON.parse]: a number that is not finite is read
      back as [null], [-0] as [0], and a property that is [undefined] is
      not read back at all.  [orderCache] is the cache as it is read. *)

From Stdlib Require Import PrimFloat ZArith Lia.
From stdpp Require Import gmap strings list.

Set Warnings "-register-all".

Open Scope Z_scope.
Open Scope string_scope.

(* ===================================================================== *)
(** * JavaScript values *)
(* ===================================================================== *)

(** Untyped data ([any], [Record<string, any>], a request body). *)
Inductive jsval : Type :=
| JUndefined
| JNull
| JBool (b : bool)
| JNum (n : float)
| JStr (s : string)
| JArr (elems : list jsval)
| JObj (props : list (string * jsval)).

(** ToBoolean. *)
Definition truthy (v : jsval) : bool :=
  match v with
  | JUndefined | JNull => false
  | JBool b => b
  | JNum n => negb (PrimFloat.eqb n 0 || PrimFloat.is_nan n)
  | JStr s => negb (String.eqb s "")
  | JArr _ | JObj _ => true
  end.

Fixpoint assoc (k : string) (props : list (string * jsval)) : jsval :=
  match props with
  | [] => JUndefined
  | (k', v) :: rest => if String.eqb k k' then v else assoc k rest
  end.

(** [v?.k] for the property names the services read: [undefined] on
    [undefined], [null] and on values that carry no such own property. *)
Definition field (k : string) (v : jsval) : jsval :=
  match v with
  | JObj props => assoc k props
  | _ => JUndefined
  end.

(** [v] is an object with an own property [k], whatever its value. *)
Definition owns (k : string) (v : jsval) : bool :=
  match v with
  | JObj props => existsb (fun p => String.eqb k (fst p)) props
  | _ => false
  end.

(** ToString, as a template literal [`${v}`] applies it, returns.  The
    values here are data ([JSON.parse] made them), so an own [toString]
    property is never callable: an object that has one cannot be converted
    and the interpolation throws a [TypeError]; any other object is
    ["[object Object]"].  An array is the join of its elements, [null] and
    [undefined] being skipped. *)
Fixpoint printable (v : jsval) : bool :=
  match v with
  | JArr elems =>
      forallb (fun e => match e with
                        | JUndefined | JNull => true
                        | _ => printable e
                        end) elems
  | JObj _ => negb (owns "toString" v)
  | _ => true
  end.

(** ** JSON *)

(** A property declared [number] as it is at run time once the record may
    have been through JSON: a number, or the [null] that [JSON.stringify]
    writes for [NaN] and the infinities. *)
Inductive number :=
| Num (n : float)
| Null.

(** [JSON.parse(JSON.stringify(n))] for a number: a finite number is read
    back as itself, except that [-0] is written ["0"]; [NaN], [Infinity]
    and [-Infinity] are written ["null"]. *)
Definition JSON_float (n : float) : number :=
  if PrimFloat.is_finite n
  then Num (if PrimFloat.is_zero n then 0%float else n)
  else Null.

Definition JSON_number (n : number) : number :=
  match n with
  | Num n => JSON_float n
  | Null => Null
  end.

(** [JSON.parse(JSON.stringify(v))] for a property value [v]: a property
    whose value is [undefined] is left out, an [undefined] array element is
    written [null], numbers are as above. *)
Fixpoint JSON_value (v : jsval) : jsval :=
  match v with
  | JNum n =>
      match JSON_float n with
      | Num n => JNum n
      | Null => JNull
      end
  | JArr elems =>
      JArr ((fix each (l : list jsval) : list jsval :=
               match l with
               | [] => []
               | e :: l =>
                   match e with
                   | JUndefined => JNull
                   | _ => JSON_value e
                   end :: each l
               end) elems)
  | JObj props =>
      JObj ((fix each (l : list (string * jsval)) : list (string * jsval) :=
               match l with
               | [] => []
               | (k, e) :: l =>
                   match e with
                   | JUndefined => each l
                   | _ => (k, JSON_value e) :: each l
                   end
               end) props)
  | _ => v
  end.

(* ===================================================================== *)
(** * The retry interceptor of the provider clients *)
(* ===================================================================== *)

Module Axios.

(** The three clients install the same response interceptor; only the log
    prefix differs. *)
Inductive Provider := Uber | DoorDash | Instacart.

(** [AxiosError]: [code] is set for transport failures
    (['ECONNABORTED'], ['ETIMEDOUT'], ...), [response.status] when the
    server answered. *)
Record AxiosError := {
  code : option string;
  response_status : option Z;
}.

Record AxiosResponse := {
  status : Z;
  data : jsval;
}.

(** The request configuration; [_retry] is the property the interceptor
    adds to it ([undefined] on a request of the service's own). *)
Record RequestConfig := {
  url : string;
  _retry : option Z;
}.

Inductive Settled :=
| Fulfilled (response : AxiosResponse)
| Rejected (error : AxiosError).

(** One line of [console.log(`Retrying after ${delay}ms (attempt n/3)`)],
    which is also one [setTimeout(resolve, delay)]. *)
Record RetryLog := {
  log_provider : Provider;
  log_delay : Z;
  log_attempt : Z;
}.

(** What a call of the instance amounts to: how it settles, how many
    requests went out, and the backoff waits in order. *)
Record Run := {
  settled : Settled;
  attempts : nat;
  waits : list RetryLog;
}.

(** [!originalRequest._retry] *)
Definition not_retry (cfg : RequestConfig) : bool :=
  match _retry cfg with
  | None => true
  | Some n => (n =? 0)%Z
  end.

(** [(originalRequest._retry || 0) + 1] *)
Definition next_retry (cfg : RequestConfig) : Z :=
  match _retry cfg with
  | None => 0 + 1
  | Some n => (if (n =? 0)%Z then 0 else n) + 1
  end.

Definition code_is (c : string) (error : AxiosError) : bool :=
  match code error with
  | Some c' => String.eqb c' c
  | None => false
  end.

(** [error.code === 'ECONNABORTED' || error.code === 'ETIMEDOUT' ||
    (error.response?.status && error.response.status >= 500)] *)
Definition retryable (error : AxiosError) : bool :=
  code_is "ECONNABORTED" error
  || code_is "ETIMEDOUT" error
  || match response_status error with
     | Some s => negb (s =? 0)%Z && (500 <=? s)%Z
     | None => false
     end.

(** [Math.min(1000 * Math.pow(2, n - 1), 10000)] *)
Definition backoff (n : Z) : Z := Z.min (1000 * 2 ^ (n - 1)) 10000.

Definition with_retry (cfg : RequestConfig) (n : Z) : RequestConfig :=
  {| url := url cfg; _retry := Some n |}.

(** The rejected-handler of [interceptors.response.use]; [again] is
    [this.axiosInstance], the instance the request is sent through again.
    The handler writes [_retry] on [error.config] and passes that object
    on; axios copies the properties of the configuration it is called with
    into the configuration of the new request, so the [error.config] of a
    failed retry carries the [_retry] written here. *)
Definition onRejected (p : Provider) (again : RequestConfig -> option Run)
    (error : AxiosError) (originalRequest : RequestConfig) : option Run :=
  if not_retry originalRequest && retryable error then
    let n := next_retry originalRequest in
    let originalRequest := with_retry originalRequest n in
    if (n <=? 3)%Z then
      let delay := backoff n in
      run ← again originalRequest;
      Some {| settled := settled run;
              attempts := S (attempts run);
              waits := {| log_provider := p; log_delay := delay;
                          log_attempt := n |} :: waits run |}
    else
      Some {| settled := Rejected error; attempts := 1; waits := [] |}
  else
    Some {| settled := Rejected error; attempts := 1; waits := [] |}.

(** The instance against a remote end that answers the successive
    requests with [server]: each request sent consumes one answer.  [None]
    only when the script is shorter than the requests the client makes. *)
Fixpoint axiosInstance (p : Provider) (server : list Settled)
    (cfg : RequestConfig) : option Run :=
  match server with
  | [] => None
  | Fulfilled response :: _ =>
      Some {| settled := Fulfilled response; attempts := 1; waits := [] |}
  | Rejected error :: rest =>
      onRejected p (axiosInstance p rest) error cfg
  end.

(** An error handed to the caller after a single request. *)
Definition surfaced (error : AxiosError) : Run :=
  {| settled := Rejected error; attempts := 1; waits := [] |}.

(** A request as the services issue it. *)
Definition request (u : string) : RequestConfig :=
  {| url := u; _retry := None |}.

Definition timeout : AxiosError :=
  {| code := Some "ECONNABORTED"; response_status := None |}.

Definition http_error (s : Z) : AxiosError :=
  {| code := Some (if (500 <=? s)%Z then "ERR_BAD_RESPONSE" else "ERR_BAD_REQUEST");
     response_status := Some s |}.

Definition ok : AxiosResponse := {| status := 200; data := JObj [] |}.

End Axios.

(* ===================================================================== *)
(** * Data model (types/index.ts) *)
(* ===================================================================== *)

Inductive UpsellCategory :=
| FOOD_DELIVERY | GROCERY_DELIVERY | TRANSPORTATION | EARLY_CHECKIN
| LATE_CHECKOUT | EXTRA_CLEANING | LOCAL_ACTIVITIES | RESTAURANT_RESERVATION.

Inductive UpsellOrderStatus :=
| PENDING | CONFIRMED | IN_PROGRESS | COMPLETED | CANCELLED | REFUNDED.

Record UpsellItem := {
  item_id : string;
  category : UpsellCategory;
  name : string;
  description : string;
  item_price : float;
  item_currency : string;
  imageUrl : option string;
  available : bool;
  item_metadata : jsval;
}.

(** An element of [UpsellOrder.items]. *)
Record OrderItem := {
  upsellId : string;
  quantity : number;
  price : number;
  metadata : jsval;
}.

Record UpsellOrder := {
  id : string;
  reservationId : string;
  propertyId : string;
  guestId : string;
  items : list OrderItem;
  totalAmount : number;
  currency : string;
  status : UpsellOrderStatus;
  paymentIntentId : option string;
  externalOrderId : option string;
  externalProvider : option string;
  scheduledFor : option Z;
  completedAt : option Z;
  cancelledAt : option Z;
  refundedAt : option Z;
  createdAt : Z;
  updatedAt : Z;
}.

(** An element of [CreateUpsellOrderDto.items] as it arrives in the request
    body.  The declared type has [upsellId], [quantity] and [metadata];
    [dto_price] stands for a [price] property a caller may add to the JSON
    all the same ([JUndefined] when there is none). *)
Record DtoItem := {
  dto_upsellId : string;
  dto_quantity : float;
  dto_metadata : jsval;
  dto_price : jsval;
}.

Record CreateUpsellOrderDto := {
  dto_reservationId : string;
  dto_items : list DtoItem;
  dto_scheduledFor : option Z;
}.

(** [UberOAuth2Token], the fields [getValidToken] reads. *)
Record UberOAuth2Token := {
  access_token : string;
  expires_in : Z;
}.

(** An entry of [UberService.tokenCache]. *)
Record CachedToken := {
  token : string;
  expiresAt : Z;
}.

(* ===================================================================== *)
(** * Environment, process state and the monad of the services *)
(* ===================================================================== *)

(** How an [async] call settles. *)
Inductive result (A : Type) :=
| Ok (value : A)
| Throw (message : string).
Arguments Ok {A} value.
Arguments Throw {A} message.

(** The outbound provider calls the order service and the token cache
    make. *)
Inductive ApiOp :=
| UberRefreshAccessToken | UberRequestRide
| DoorDashGetDeliveryQuote | DoorDashCreateDelivery
| InstacartGetOrderEstimate | InstacartCreateOrder.

(** Everything the services do not decide themselves.  The [nat] argument
    is the number of draws made from the environment so far, so that the
    clock advances and a provider may answer the same request differently
    at different times. *)
Record Env := {
  clock : nat -> Z;
  uuidv4 : nat -> string;
  createHmac_sha256_hex : string -> string -> string;
  JSON_stringify : jsval -> option string;
  refreshAccessToken : nat -> string -> result UberOAuth2Token;
  requestRide : nat -> jsval -> jsval -> result string;
  getDeliveryQuote : nat -> list jsval -> result jsval;
  createDelivery : nat -> list jsval -> result string;
  getOrderEstimate : nat -> list jsval -> result jsval;
  createOrder : nat -> list jsval -> result string;
}.

(** The text [JSON.stringify(order)], the value of a key
    [upsell:order:<id>].  It is kept as the record it was written from;
    what a reader gets from it is [JSON_parse_order] below.  (Records that
    differ only in what JSON does not keep, such as [-0] and [0], have the
    same text; the model keeps the two texts apart, which makes no
    difference to a reader.) *)
Inductive OrderJson :=
| JSON_stringify_order (order : UpsellOrder).

Definition JSON_item (item : OrderItem) : OrderItem :=
  {| upsellId := upsellId item;
     quantity := JSON_number (quantity item);
     price := JSON_number (price item);
     metadata := JSON_value (metadata item) |}.

(** What [getCachedOrder] makes of a text: [JSON.parse], and [new
    Date(...)] on the date properties.  Strings, the status and the
    optional properties come back as they were written (an [undefined]
    property is not written), a date comes back from its ISO string, and
    the numbers and the metadata are the ones JSON keeps. *)
Definition JSON_roundtrip (order : UpsellOrder) : UpsellOrder :=
  {| id := id order; reservationId := reservationId order;
     propertyId := propertyId order; guestId := guestId order;
     items := map JSON_item (items order);
     totalAmount := JSON_number (totalAmount order);
     currency := currency order; status := status order;
     paymentIntentId := paymentIntentId order;
     externalOrderId := externalOrderId order;
     externalProvider := externalProvider order;
     scheduledFor := scheduledFor order;
     completedAt := completedAt order; cancelledAt := cancelledAt order;
     refundedAt := refundedAt order;
     createdAt := createdAt order; updatedAt := updatedAt order |}.

Definition JSON_parse_order (cached : OrderJson) : UpsellOrder :=
  match cached with
  | JSON_stringify_order order => JSON_roundtrip order
  end.

(** The mutable state: the two Redis key spaces of the order service
    ([upsell:catalog:<propertyId>] and [upsell:order:<id>]), the in-process
    token cache of the Uber client, the number of draws from the
    environment, and the outbound calls made so far (oldest first).  The
    order keys hold JSON text. *)
Record World := {
  catalogCache : gmap string (list UpsellItem);
  orderKeys : gmap string OrderJson;
  tokenCache : gmap string CachedToken;
  ticks : nat;
  outbound : list ApiOp;
}.

(** The order cache as its readers see it: under each key, the record
    [getCachedOrder] returns for it. *)
Definition orderCache (w : World) : gmap string UpsellOrder :=
  JSON_parse_order <$> orderKeys w.

Definition M (A : Type) : Type := World -> result A * World.

Definition ret {A} (a : A) : M A := fun w => (Ok a, w).

Definition throw {A} (message : string) : M A := fun w => (Throw message, w).

Definition bind {A B} (m : M A) (k : A -> M B) : M B :=
  fun w =>
    match m w with
    | (Ok a, w') => k a w'
    | (Throw e, w') => (Throw e, w')
    end.

(** [try { body } catch (error) { handler }]: the state reached when the
    exception was raised is the one the handler resumes from. *)
Definition try_catch {A} (body : M A) (handler : string -> M A) : M A :=
  fun w =>
    match body w with
    | (Ok a, w') => (Ok a, w')
    | (Throw e, w') => handler e w'
    end.

Notation "x <- m ;; k" := (bind m (fun x => k))
  (at level 100, m at next level, right associativity).
Notation "m ;;; k" := (bind m (fun _ => k))
  (at level 100, right associativity).

Definition tick (w : World) : World :=
  {| catalogCache := catalogCache w; orderKeys := orderKeys w;
     tokenCache := tokenCache w; ticks := S (ticks w);
     outbound := outbound w |}.

Definition called (op : ApiOp) (w : World) : World :=
  {| catalogCache := catalogCache w; orderKeys := orderKeys w;
     tokenCache := tokenCache w; ticks := S (ticks w);
     outbound := outbound w ++ [op] |}.

Section Services.

Context (env : Env).

(** [new Date()] and [Date.now()], in milliseconds. *)
Definition newDate : M Z := fun w => (Ok (clock env (ticks w)), tick w).

Definition uuid : M string := fun w => (Ok (uuidv4 env (ticks w)), tick w).

(** A call of a provider client: recorded, then answered by the
    environment. *)
Definition remote {A} (op : ApiOp) (answer : nat -> result A) : M A :=
  fun w => (answer (ticks w), called op w).

End Services.

(* ===================================================================== *)
(** * UberService (services/integrations/uber.service.ts) *)
(* ===================================================================== *)

Definition set_tokenCache (w : World) (c : gmap string CachedToken) : World :=
  {| catalogCache := catalogCache w; orderKeys := orderKeys w;
     tokenCache := c; ticks := ticks w; outbound := outbound w |}.

Section UberService.

Context (env : Env).

(** [this.tokenCache.get(userId)] *)
Definition tokenCache_get (userId : string) : M (option CachedToken) :=
  fun w => (Ok (tokenCache w !! userId), w).

(** [this.tokenCache.set(userId, entry)] *)
Definition tokenCache_set (userId : string) (entry : CachedToken) : M unit :=
  fun w => (Ok tt, set_tokenCache w (<[userId := entry]> (tokenCache w))).

(** The tail of [getValidToken]: "Token expired or not cached, refresh
    it". *)
Definition refreshAndCache (userId refreshToken : string) : M string :=
  tokenData <- remote UberRefreshAccessToken
                 (fun t => refreshAccessToken env t refreshToken) ;;
  now <- newDate env ;;
  let expiresAt := now + expires_in tokenData * 1000 in
  tokenCache_set userId
    {| token := access_token tokenData; expiresAt := expiresAt |} ;;;
  ret (access_token tokenData).

(** [getValidToken(userId, refreshToken)].  [new Date()] is only
    evaluated when there is a cached entry ([cached && ...]). *)
Definition getValidToken (userId refreshToken : string) : M string :=
  cached <- tokenCache_get userId ;;
  match cached with
  | Some entry =>
      now <- newDate env ;;
      if (now <? expiresAt entry)%Z          (* cached.expiresAt > new Date() *)
      then ret (token entry)
      else refreshAndCache userId refreshToken
  | None => refreshAndCache userId refreshToken
  end.

End UberService.

Module UberWebhook.

(** [verifyWebhookSignature(payload, signature)]: "Uber currently doesn't
    provide webhook signature verification". *)
Definition verifyWebhookSignature (payload : option string)
    (signature : string) : bool := true.

End UberWebhook.

(* ===================================================================== *)
(** * Webhook signatures of DoorDash and Instacart *)
(* ===================================================================== *)

(** [crypto.timingSafeEqual(Buffer.from(a), Buffer.from(b))]: a
    [RangeError] when the byte lengths differ, the comparison otherwise.  A
    [string] here is the UTF-8 byte sequence [Buffer.from] produces. *)
Definition timingSafeEqual (a b : string) : result bool :=
  if (String.length a =? String.length b)%nat
  then Ok (String.eqb a b)
  else Throw "Input buffers must have the same byte length".

Section SignedWebhooks.

Context (env : Env).

(** The body both services share: [createHmac('sha256', key)
    .update(payload).digest('hex')], compared with the header inside a
    [try] whose [catch] returns [false].  [payload] is [None] when
    [JSON.stringify] gave [undefined], on which [update] throws. *)
Definition hmacVerify (key : string) (payload : option string)
    (signature : string) : bool :=
  match payload with
  | None => false
  | Some text =>
      let computedSignature := createHmac_sha256_hex env key text in
      match timingSafeEqual signature computedSignature with
      | Ok b => b
      | Throw _ => false
      end
  end.

(** [DoorDashService.verifyWebhookSignature], keyed by
    [this.signingSecret]. *)
Definition doorDash_verifyWebhookSignature (signingSecret : string) :=
  hmacVerify signingSecret.

(** [InstacartService.verifyWebhookSignature], keyed by [this.apiKey]. *)
Definition instacart_verifyWebhookSignature (apiKey : string) :=
  hmacVerify apiKey.

End SignedWebhooks.

(* ===================================================================== *)
(** * Webhook routes (routes/upsell.routes.ts) *)
(* ===================================================================== *)

Record Request := {
  body : jsval;
  headers : string -> option string;
}.

(** What [reply.code(c).send({...})] sends. *)
Record Reply := {
  code : Z;
  success : bool;
  eventId : jsval;
  processedAt : option Z;
  error : option string;
}.

(** The fields of a [processWebhook] result the routes read. *)
Record Processed := {
  p_eventId : jsval;
  p_processedAt : Z;
}.

Definition accepted (r : Processed) : Reply :=
  {| code := 200; success := true; eventId := p_eventId r;
     processedAt := Some (p_processedAt r); error := None |}.

Definition refused (c : Z) (message : string) : Reply :=
  {| code := c; success := false; eventId := JUndefined;
     processedAt := None; error := Some message |}.

Definition nullish (v : jsval) : bool :=
  match v with
  | JUndefined | JNull => true
  | _ => false
  end.

(** Reading a property of [undefined] or [null] is a [TypeError]. *)
Definition property (k : string) (v : jsval) : M jsval :=
  if nullish v
  then throw ("Cannot read properties of undefined (reading '" ++ k ++ "')")
  else ret (field k v).

(** A value interpolated into a log line, [`... ${v} ...`]: a [TypeError]
    when it cannot be converted to a string. *)
Definition interpolate (v : jsval) : M unit :=
  if printable v then ret tt
  else throw "Cannot convert object to primitive value".

(** [switch (v)] has a [case] for [v]: it is one of the strings. *)
Definition is_case (cases : list string) (v : jsval) : bool :=
  match v with
  | JStr s => existsb (String.eqb s) cases
  | _ => false
  end.

(** A header value is used as a condition: absent and empty are falsy. *)
Definition present (h : option string) : option string :=
  match h with
  | Some s => if String.eqb s "" then None else Some s
  | None => None
  end.

Section Routes.

Context (env : Env).

(** The body [DoorDashService.processWebhook] and
    [InstacartService.processWebhook] share: the event's type and id are
    logged; inside the [try], the [switch] selects a handler, which logs
    the property [reference] of the event, or the [default], which logs
    the type again; the result echoes the event id, with [new Date()].
    The [catch] logs the event id and throws the error again.  [name] is
    the property that holds the type and [events] are the types the
    [switch] has a case for. *)
Definition processEvent (name reference : string) (events : list string)
    (event : jsval) : M Processed :=
  event_name <- property name event ;;
  interpolate event_name ;;;
  event_id <- property "event_id" event ;;
  interpolate event_id ;;;
  try_catch
    ((if is_case events event_name
      then logged <- property reference event ;; interpolate logged
      else interpolate event_name) ;;;
     now <- newDate env ;;
     ret {| p_eventId := event_id; p_processedAt := now |})
    (fun error => interpolate event_id ;;; throw error).

(** [DoorDashService.processWebhook] *)
Definition processWebhook : jsval -> M Processed :=
  processEvent "event_name" "external_delivery_id"
    ["delivery.created"; "delivery.confirmed"; "delivery.picked_up";
     "delivery.delivered"; "delivery.cancelled"; "delivery.returned"].

(** [InstacartService.processWebhook] *)
Definition instacart_processWebhook : jsval -> M Processed :=
  processEvent "event_type" "order_id"
    ["order.created"; "order.shopping"; "order.delivering"; "order.delivered";
     "order.cancelled"; "item.replaced"; "item.refunded"].

(** [UberService.processWebhook]: the two handlers destructure
    [event.meta] and log [resource_id] and [user_id]; the result reads
    [event.meta.resource_id] and [event.meta.user_id]. *)
Definition uber_processWebhook (event : jsval) : M Processed :=
  event_type <- property "event_type" event ;;
  interpolate event_type ;;;
  event_id <- property "event_id" event ;;
  interpolate event_id ;;;
  try_catch
    ((if is_case ["requests.status_changed"; "requests.receipt_ready"] event_type
      then
        meta <- property "meta" event ;;
        resource_id <- property "resource_id" meta ;;
        user_id <- property "user_id" meta ;;
        interpolate resource_id ;;;
        interpolate user_id
      else interpolate event_type) ;;;
     meta <- property "meta" event ;;
     _ <- property "resource_id" meta ;;
     _ <- property "user_id" meta ;;
     now <- newDate env ;;
     ret {| p_eventId := event_id; p_processedAt := now |})
    (fun error => interpolate event_id ;;; throw error).

(** The handler of [POST /webhooks/doordash] and of
    [POST /webhooks/instacart]; they differ in the header read, in the
    service whose [verifyWebhookSignature] and [processWebhook] are
    called, and in the property logged. *)
Definition signedWebhook (header logged failure : string)
    (verifyWebhookSignature : option string -> string -> bool)
    (process : jsval -> M Processed) (request : Request) : M Reply :=
  try_catch
    (let rawBody := JSON_stringify env (body request) in
     let signature := headers request header in
     if match present signature with
        | Some signature => negb (verifyWebhookSignature rawBody signature)
        | None => false
        end
     then ret (refused 401 "Invalid webhook signature")
     else
       let event := body request in
       name <- property logged event ;;
       interpolate name ;;;                    (* server.log.info *)
       result <- process event ;;
       ret (accepted result))
    (fun _ => ret (refused 500 failure)).

Definition doorDashWebhook (signingSecret : string) : Request -> M Reply :=
  signedWebhook "x-doordash-signature" "event_name"
    "Failed to process DoorDash webhook"
    (doorDash_verifyWebhookSignature env signingSecret) processWebhook.

Definition instacartWebhook (apiKey : string) : Request -> M Reply :=
  signedWebhook "x-instacart-signature" "event_type"
    "Failed to process Instacart webhook"
    (instacart_verifyWebhookSignature env apiKey) instacart_processWebhook.

(** The handler of [POST /webhooks/uber]: no header is read and
    [verifyWebhookSignature] is not called. *)
Definition uberWebhook (request : Request) : M Reply :=
  try_catch
    (let event := body request in
     event_type <- property "event_type" event ;;
     interpolate event_type ;;;                (* server.log.info *)
     result <- uber_processWebhook event ;;
     ret (accepted result))
    (fun _ => ret (refused 500 "Failed to process Uber webhook")).

End Routes.

(* ===================================================================== *)
(** * UpsellService (services/upsell.service.ts) *)
(* ===================================================================== *)

Definition set_catalogCache (w : World) (c : gmap string (list UpsellItem)) : World :=
  {| catalogCache := c; orderKeys := orderKeys w;
     tokenCache := tokenCache w; ticks := ticks w; outbound := outbound w |}.

Definition set_orderKeys (w : World) (c : gmap string OrderJson) : World :=
  {| catalogCache := catalogCache w; orderKeys := c;
     tokenCache := tokenCache w; ticks := ticks w; outbound := outbound w |}.

(** [catalog.find(c => c.id === upsellId)] *)
Definition findItem (catalog : list UpsellItem) (upsellId : string) : option UpsellItem :=
  List.find (fun c => String.eqb (item_id c) upsellId) catalog.

(** The callback of [dto.items.map] in [createUpsellOrder], with the
    [totalAmount] it accumulates: on the first item that is missing or not
    available the whole [map] throws. *)
Fixpoint mapItems (catalog : list UpsellItem) (items : list DtoItem)
    (totalAmount : float) : result (list OrderItem * float) :=
  match items with
  | [] => Ok ([], totalAmount)
  | item :: rest =>
      match findItem catalog (dto_upsellId item) with
      | None => Throw ("Upsell item not found: " ++ dto_upsellId item)
      | Some catalogItem =>
          if negb (available catalogItem)
          then Throw ("Upsell item not available: " ++ name catalogItem)
          else
            let itemTotal := (item_price catalogItem * dto_quantity item)%float in
            let totalAmount := (totalAmount + itemTotal)%float in
            match mapItems catalog rest totalAmount with
            | Ok (orderItems, totalAmount) =>
                Ok ({| upsellId := dto_upsellId item;
                       quantity := Num (dto_quantity item);
                       price := Num (item_price catalogItem);
                       metadata := dto_metadata item |} :: orderItems,
                    totalAmount)
            | Throw e => Throw e
            end
      end
  end.

Definition lift {A} (r : result A) : M A := fun w => (r, w).

(** [{...order, status, externalOrderId, externalProvider, updatedAt}] *)
Definition spread_status (order : UpsellOrder) (status : UpsellOrderStatus)
    (externalOrderId externalProvider : option string) (updatedAt : Z) : UpsellOrder :=
  {| id := id order; reservationId := reservationId order;
     propertyId := propertyId order; guestId := guestId order;
     items := items order; totalAmount := totalAmount order;
     currency := currency order; status := status;
     paymentIntentId := paymentIntentId order;
     externalOrderId := externalOrderId;
     externalProvider := externalProvider;
     scheduledFor := scheduledFor order;
     completedAt := completedAt order; cancelledAt := cancelledAt order;
     refundedAt := refundedAt order;
     createdAt := createdAt order; updatedAt := updatedAt |}.

Definition set_completedAt (order : UpsellOrder) (t : Z) : UpsellOrder :=
  {| id := id order; reservationId := reservationId order;
     propertyId := propertyId order; guestId := guestId order;
     items := items order; totalAmount := totalAmount order;
     currency := currency order; status := status order;
     paymentIntentId := paymentIntentId order;
     externalOrderId := externalOrderId order;
     externalProvider := externalProvider order;
     scheduledFor := scheduledFor order;
     completedAt := Some t; cancelledAt := cancelledAt order;
     refundedAt := refundedAt order;
     createdAt := createdAt order; updatedAt := updatedAt order |}.

Definition set_cancelledAt (order : UpsellOrder) (t : Z) : UpsellOrder :=
  {| id := id order; reservationId := reservationId order;
     propertyId := propertyId order; guestId := guestId order;
     items := items order; totalAmount := totalAmount order;
     currency := currency order; status := status order;
     paymentIntentId := paymentIntentId order;
     externalOrderId := externalOrderId order;
     externalProvider := externalProvider order;
     scheduledFor := scheduledFor order;
     completedAt := completedAt order; cancelledAt := Some t;
     refundedAt := refundedAt order;
     createdAt := createdAt order; updatedAt := updatedAt order |}.

Definition set_refundedAt (order : UpsellOrder) (t : Z) : UpsellOrder :=
  {| id := id order; reservationId := reservationId order;
     propertyId := propertyId order; guestId := guestId order;
     items := items order; totalAmount := totalAmount order;
     currency := currency order; status := status order;
     paymentIntentId := paymentIntentId order;
     externalOrderId := externalOrderId order;
     externalProvider := externalProvider order;
     scheduledFor := scheduledFor order;
     completedAt := completedAt order; cancelledAt := cancelledAt order;
     refundedAt := Some t;
     createdAt := createdAt order; updatedAt := updatedAt order |}.

Section UpsellService.

Context (env : Env).

(** [getCachedCatalog]: [redis.get] of [upsell:catalog:<propertyId>].  The
    only catalogue [cacheCatalog] is called with is the literal of
    [getUpsellCatalog]: finite prices, strings and booleans, which come
    back from [JSON.parse(JSON.stringify(catalog))] as they were. *)
Definition getCachedCatalog (propertyId : string) : M (option (list UpsellItem)) :=
  fun w => (Ok (catalogCache w !! propertyId), w).

(** [cacheCatalog]: [redis.setex] of the same key. *)
Definition cacheCatalog (propertyId : string) (catalog : list UpsellItem) : M unit :=
  fun w => (Ok tt, set_catalogCache w (<[propertyId := catalog]> (catalogCache w))).

(** [cacheOrder]: [redis.setex] of [upsell:order:<order.id>] with
    [JSON.stringify(order)]. *)
Definition cacheOrder (order : UpsellOrder) : M unit :=
  fun w =>
    (Ok tt,
     set_orderKeys w (<[id order := JSON_stringify_order order]> (orderKeys w))).

(** [getCachedOrder]: [redis.get] of [upsell:order:<orderId>], [null] when
    there is no text, the parsed text with its dates revived otherwise. *)
Definition getCachedOrder (orderId : string) : M (option UpsellOrder) :=
  fun w =>
    (Ok match orderKeys w !! orderId with
        | None => None
        | Some cached => Some (JSON_parse_order cached)
        end,
     w).

(** One entry of the catalogue literal: [{ id: uuidv4(), ... }]. *)
Definition entry (category : UpsellCategory) (name description : string)
    (price : float) (metadata : jsval) : M UpsellItem :=
  i <- uuid env ;;
  ret {| item_id := i; category := category; name := name;
         description := description; item_price := price;
         item_currency := "USD"; imageUrl := None; available := true;
         item_metadata := metadata |}.

Definition getUpsellCatalog (propertyId : string) : M (list UpsellItem) :=
  cached <- getCachedCatalog propertyId ;;
  match cached with
  | Some catalog => ret catalog
  | None =>
      c1 <- entry TRANSPORTATION "Uber Ride"
              "Request an Uber ride to anywhere in the city" 0
              (JObj [("provider", JStr "uber"); ("dynamic_pricing", JBool true)]) ;;
      c2 <- entry FOOD_DELIVERY "DoorDash Food Delivery"
              "Order food from local restaurants" 0
              (JObj [("provider", JStr "doordash"); ("placeholder", JBool true)]) ;;
      c3 <- entry GROCERY_DELIVERY "Instacart Grocery Delivery"
              "Fresh groceries delivered to your door" 0
              (JObj [("provider", JStr "instacart"); ("placeholder", JBool true)]) ;;
      c4 <- entry EARLY_CHECKIN "Early Check-in (11 AM)"
              "Check in 3 hours early, subject to availability" 50 JUndefined ;;
      c5 <- entry LATE_CHECKOUT "Late Checkout (2 PM)"
              "Check out 3 hours late, subject to availability" 50 JUndefined ;;
      c6 <- entry EXTRA_CLEANING "Mid-Stay Cleaning"
              "Full cleaning service during your stay" 75 JUndefined ;;
      c7 <- entry LOCAL_ACTIVITIES "City Tour Package"
              "3-hour guided city tour with local expert" 120 JUndefined ;;
      c8 <- entry LOCAL_ACTIVITIES "Wine Tasting Tour"
              "Visit 3 local wineries with transportation included" 150 JUndefined ;;
      c9 <- entry RESTAURANT_RESERVATION "Premium Restaurant Reservation"
              "Reserved table at top-rated local restaurant" 25 JUndefined ;;
      let catalog := [c1; c2; c3; c4; c5; c6; c7; c8; c9] in
      cacheCatalog propertyId catalog ;;;
      ret catalog
  end.

Definition getOrderById (orderId : string) : M (option UpsellOrder) :=
  getCachedOrder orderId.

Definition updateOrderStatus (orderId : string) (status : UpsellOrderStatus)
    (externalOrderId externalProvider : option string) : M UpsellOrder :=
  order <- getOrderById orderId ;;
  match order with
  | None => throw "Order not found"
  | Some order =>
      now <- newDate env ;;
      let updated :=
        spread_status order status externalOrderId externalProvider now in
      updated <-
        match status with
        | COMPLETED => t <- newDate env ;; ret (set_completedAt updated t)
        | CANCELLED => t <- newDate env ;; ret (set_cancelledAt updated t)
        | REFUNDED => t <- newDate env ;; ret (set_refundedAt updated t)
        | _ => ret updated
        end ;;
      cacheOrder updated ;;;
      ret updated
  end.

End UpsellService.

Definition is_string (s : string) (v : jsval) : bool :=
  match v with
  | JStr s' => String.eqb s' s
  | _ => false
  end.

(** [!m?.k] *)
Definition missing (k : string) (m : jsval) : bool := negb (truthy (field k m)).

Section ExternalIntegrations.

Context (env : Env).

Definition processUberRideRequest (order : UpsellOrder) (item : OrderItem)
    (catalogItem : UpsellItem) : M unit :=
  let rideMetadata := metadata item in
  if missing "userToken" rideMetadata || missing "productId" rideMetadata
  then throw "Missing required Uber metadata: userToken and productId"
  else
    let userToken := field "userToken" rideMetadata in
    try_catch
      (request_id <-
         remote UberRequestRide (fun t =>
           requestRide env t userToken
             (JObj [("product_id", field "productId" rideMetadata);
                    ("start_latitude", field "startLat" rideMetadata);
                    ("start_longitude", field "startLng" rideMetadata);
                    ("end_latitude", field "endLat" rideMetadata);
                    ("end_longitude", field "endLng" rideMetadata);
                    ("fare_id", field "fareId" rideMetadata)])) ;;
       updateOrderStatus env (id order) CONFIRMED (Some request_id) (Some "uber") ;;;
       ret tt)
      (fun message => throw ("Uber ride request failed: " ++ message)).

Definition processDoorDashDelivery (order : UpsellOrder) (item : OrderItem)
    (catalogItem : UpsellItem) : M unit :=
  let deliveryMetadata := metadata item in
  if missing "pickupAddress" deliveryMetadata
     || missing "deliveryAddress" deliveryMetadata
     || missing "items" deliveryMetadata
  then throw "Missing required DoorDash metadata: addresses and items"
  else
    let common :=
      [field "pickupAddress" deliveryMetadata;
       field "deliveryAddress" deliveryMetadata;
       field "items" deliveryMetadata;
       field "pickupContact" deliveryMetadata;
       field "deliveryContact" deliveryMetadata] in
    try_catch
      (quote <-
         remote DoorDashGetDeliveryQuote (fun t => getDeliveryQuote env t common) ;;
       external_delivery_id <-
         remote DoorDashCreateDelivery (fun t =>
           createDelivery env t
             (quote :: common ++
                [field "pickupInstructions" deliveryMetadata;
                 field "deliveryInstructions" deliveryMetadata])) ;;
       updateOrderStatus env (id order) CONFIRMED
         (Some external_delivery_id) (Some "doordash") ;;;
       ret tt)
      (fun message => throw ("DoorDash delivery creation failed: " ++ message)).

(** [scheduledFor ? new Date(scheduledFor) : undefined] is passed on as
    the value itself. *)
Definition processInstacartOrder (order : UpsellOrder) (item : OrderItem)
    (catalogItem : UpsellItem) : M unit :=
  let orderMetadata := metadata item in
  if missing "storeId" orderMetadata
     || missing "items" orderMetadata
     || missing "deliveryAddress" orderMetadata
     || missing "contactPhone" orderMetadata
     || missing "contactEmail" orderMetadata
  then throw "Missing required Instacart metadata: storeId, items, address, and contact info"
  else
    let scheduledFor := field "scheduledFor" orderMetadata in
    try_catch
      (_ <-
         remote InstacartGetOrderEstimate (fun t =>
           getOrderEstimate env t
             [field "storeId" orderMetadata; field "items" orderMetadata;
              field "deliveryAddress" orderMetadata; field "tip" orderMetadata]) ;;
       order_id <-
         remote InstacartCreateOrder (fun t =>
           createOrder env t
             [field "storeId" orderMetadata; field "items" orderMetadata;
              field "deliveryAddress" orderMetadata;
              field "contactPhone" orderMetadata;
              field "contactEmail" orderMetadata;
              field "deliveryInstructions" orderMetadata;
              (if truthy scheduledFor then scheduledFor else JUndefined);
              field "tip" orderMetadata]) ;;
       updateOrderStatus env (id order) CONFIRMED (Some order_id) (Some "instacart") ;;;
       ret tt)
      (fun message => throw ("Instacart order creation failed: " ++ message)).

(** The [switch (provider)] of [processExternalIntegrations]; the second
    component is the provider name the [catch] passes on.  The log lines
    of the loop print [order.id] and [provider], which are strings
    ([provider] is read [as string], and the catalogue literal has no
    other). *)
Definition integration (provider : jsval) (order : UpsellOrder)
    (item : OrderItem) (catalogItem : UpsellItem) : M unit * option string :=
  if is_string "uber" provider then
    (processUberRideRequest order item catalogItem, Some "uber")
  else if is_string "doordash" provider then
    (processDoorDashDelivery order item catalogItem, Some "doordash")
  else if is_string "instacart" provider then
    (processInstacartOrder order item catalogItem, Some "instacart")
  else
    (ret tt, None).                       (* default: console.warn *)

(** One turn of [for (const item of order.items)]. *)
Definition processItem (order : UpsellOrder) (catalog : list UpsellItem)
    (item : OrderItem) : M unit :=
  match findItem catalog (upsellId item) with
  | None => ret tt                                           (* continue *)
  | Some catalogItem =>
      let provider := field "provider" (item_metadata catalogItem) in
      if negb (truthy provider) then ret tt                  (* continue *)
      else
        let '(call, name) := integration provider order item catalogItem in
        try_catch call
          (fun _ =>
             updateOrderStatus env (id order) PENDING None name ;;;
             ret tt)
  end.

Fixpoint forEachItem (order : UpsellOrder) (catalog : list UpsellItem)
    (rest : list OrderItem) : M unit :=
  match rest with
  | [] => ret tt
  | item :: rest =>
      processItem order catalog item ;;;
      forEachItem order catalog rest
  end.

Definition processExternalIntegrations (order : UpsellOrder)
    (catalog : list UpsellItem) : M unit :=
  forEachItem order catalog (items order).

Definition createUpsellOrder (dto : CreateUpsellOrderDto)
    (guestId propertyId : string) : M UpsellOrder :=
  catalog <- getUpsellCatalog env propertyId ;;
  mapped <- lift (mapItems catalog (dto_items dto) 0) ;;
  let '(orderItems, totalAmount) := mapped in
  i <- uuid env ;;
  created <- newDate env ;;
  updated <- newDate env ;;
  let order :=
    {| id := i; reservationId := dto_reservationId dto;
       propertyId := propertyId; guestId := guestId;
       items := orderItems; totalAmount := Num totalAmount;
       currency := "USD"; status := PENDING;
       paymentIntentId := None;
       externalOrderId := None; externalProvider := None;
       scheduledFor := dto_scheduledFor dto;
       completedAt := None; cancelledAt := None; refundedAt := None;
       createdAt := created; updatedAt := updated |} in
  cacheOrder order ;;;
  processExternalIntegrations order catalog ;;;
  ret order.

End ExternalIntegrations.

(* ===================================================================== *)
(** * Reference notions the properties are stated with *)
(* ===================================================================== *)

(** The catalogue [createUpsellOrder] resolves for [propertyId] in state
    [w]: the cached one, or the literal built on a miss. *)
Definition resolvedCatalog (env : Env) (propertyId : string) (w : World) : list UpsellItem :=
  match fst (getUpsellCatalog env propertyId w) with
  | Ok catalog => catalog
  | Throw _ => []
  end.

(** The state in which the catalogue has been resolved. *)
Definition afterCatalog (env : Env) (propertyId : string) (w : World) : World :=
  snd (getUpsellCatalog env propertyId w).

(** The catalogue price of [upsellId]: the price of the first item of the
    catalogue whose id is [upsellId] (and 0 when no item has that id). *)
Fixpoint catalogPrice (catalog : list UpsellItem) (upsellId : string) : float :=
  match catalog with
  | [] => 0
  | catalogItem :: rest =>
      if decide (item_id catalogItem = upsellId)
      then item_price catalogItem
      else catalogPrice rest upsellId
  end.

(** The catalogue has an item with the id of the requested line. *)
Definition listed (catalog : list UpsellItem) (item : DtoItem) : Prop :=
  exists catalogItem,
    In catalogItem catalog /\ item_id catalogItem = dto_upsellId item.

(** Sum over the requested lines of catalogue price times quantity, added
    up in request order as JavaScript numbers. *)
Definition catalogTotal (catalog : list UpsellItem) (lines : list DtoItem) : float :=
  fold_left
    (fun acc item =>
       (acc + catalogPrice catalog (dto_upsellId item) * dto_quantity item)%float)
    lines 0%float.

(** A stored line carries the request's id, quantity and metadata, and the
    catalogue's price. *)
Definition priced (catalog : list UpsellItem) (item : DtoItem) (line : OrderItem) : Prop :=
  upsellId line = dto_upsellId item
  /\ quantity line = Num (dto_quantity item)
  /\ metadata line = dto_metadata item
  /\ price line = Num (catalogPrice catalog (dto_upsellId item)).

(** The request with every caller-supplied [price] property replaced. *)
Definition reprice (prices : DtoItem -> jsval) (dto : CreateUpsellOrderDto) : CreateUpsellOrderDto :=
  {| dto_reservationId := dto_reservationId dto;
     dto_items :=
       map (fun item =>
              {| dto_upsellId := dto_upsellId item;
                 dto_quantity := dto_quantity item;
                 dto_metadata := dto_metadata item;
                 dto_price := prices item |}) (dto_items dto);
     dto_scheduledFor := dto_scheduledFor dto |}.

(** A requested line passes the catalogue check. *)
Definition purchasable (catalog : list UpsellItem) (item : DtoItem) : Prop :=
  exists catalogItem,
    findItem catalog (dto_upsellId item) = Some catalogItem
    /\ available catalogItem = true.

(** Every provider call of the order service throws. *)
Definition providers_down (env : Env) : Prop :=
  (forall t a b, exists m, requestRide env t a b = Throw m)
  /\ (forall t a, exists m, getDeliveryQuote env t a = Throw m)
  /\ (forall t a, exists m, createDelivery env t a = Throw m)
  /\ (forall t a, exists m, getOrderEstimate env t a = Throw m)
  /\ (forall t a, exists m, createOrder env t a = Throw m).

(** What the stored order keeps of the order that was created. *)
Definition same_purchase (a b : UpsellOrder) : Prop :=
  id a = id b /\ reservationId a = reservationId b
  /\ propertyId a = propertyId b /\ guestId a = guestId b
  /\ items a = items b /\ totalAmount a = totalAmount b
  /\ currency a = currency b /\ paymentIntentId a = paymentIntentId b
  /\ scheduledFor a = scheduledFor b /\ createdAt a = createdAt b.

(** A refresh policy with a safety margin, in milliseconds: a cached token
    is handed out only while [now + safety_margin <= expiresAt], and once
    [now + safety_margin > expiresAt] the token endpoint is called
    instead. *)
Definition refreshes_within (safety_margin : Z) : Prop :=
  forall env userId refreshToken w entry,
    tokenCache w !! userId = Some entry ->
    let now := clock env (ticks w) in
    let w' := snd (getValidToken env userId refreshToken w) in
    now + safety_margin > expiresAt entry ->
    outbound w' = (outbound w ++ [UberRefreshAccessToken])%list.


(** The terminal timestamp [updateOrderStatus] sets for [status], if any:
    the field of [order] after a stamp at [t]. *)
Definition stamp (status : UpsellOrderStatus) (order : UpsellOrder) (t : Z) : UpsellOrder :=
  match status with
  | COMPLETED => set_completedAt order t
  | CANCELLED => set_cancelledAt order t
  | REFUNDED => set_refundedAt order t
  | _ => order
  end.

Definition terminal (status : UpsellOrderStatus) : bool :=
  match status with
  | COMPLETED | CANCELLED | REFUNDED => true
  | _ => false
  end.

(** The order [createUpsellOrder] builds from the priced lines, when the
    environment has been drawn from [t] times. *)
Definition newOrder (env : Env) (dto : CreateUpsellOrderDto)
    (guestId propertyId : string) (orderItems : list OrderItem)
    (totalAmount : float) (t : nat) : UpsellOrder :=
  {| id := uuidv4 env t; reservationId := dto_reservationId dto;
     propertyId := propertyId; guestId := guestId;
     items := orderItems; totalAmount := Num totalAmount;
     currency := "USD"; status := PENDING;
     paymentIntentId := None;
     externalOrderId := None; externalProvider := None;
     scheduledFor := dto_scheduledFor dto;
     completedAt := None; cancelledAt := None; refundedAt := None;
     createdAt := clock env (S t); updatedAt := clock env (S (S t)) |}.

(** The cache holds, under the order's id, a record of the same purchase. *)
Definition cached_as (order : UpsellOrder) (w : World) : Prop :=
  exists stored,
    orderCache w !! id order = Some stored /\ same_purchase stored order.

(** How a provider integration can end, started with the order in the
    cache: normally, with the order still cached, or with an exception,
    in which case the order cache is the one it started from. *)
Definition settles (order : UpsellOrder) (w : World) (call : M unit) : Prop :=
  match call w with
  | (Ok _, w') => cached_as order w'
  | (Throw _, w') => orderCache w' = orderCache w
  end.

(** The cached record is moreover pending and carries no external
    reference. *)
Definition pending_as (order : UpsellOrder) (w : World) : Prop :=
  exists stored,
    orderCache w !! id order = Some stored /\ same_purchase stored order
    /\ status stored = PENDING /\ externalOrderId stored = None.

(** The properties of a line's metadata an integration requires before it
    calls its provider. *)
Definition requiredMetadata (provider : string) : list string :=
  if String.eqb provider "uber" then
    ["userToken"; "productId"]
  else if String.eqb provider "doordash" then
    ["pickupAddress"; "deliveryAddress"; "items"]
  else if String.eqb provider "instacart" then
    ["storeId"; "items"; "deliveryAddress"; "contactPhone"; "contactEmail"]
  else [].

(** The two providers whose webhooks carry a signature. *)
Inductive SignedProvider := SignedDoorDash | SignedInstacart.

Definition signatureHeader (p : SignedProvider) : string :=
  match p with
  | SignedDoorDash => "x-doordash-signature"
  | SignedInstacart => "x-instacart-signature"
  end.

Definition verifyWebhookSignature (env : Env) (p : SignedProvider) (key : string) :
    option string -> string -> bool :=
  match p with
  | SignedDoorDash => doorDash_verifyWebhookSignature env key
  | SignedInstacart => instacart_verifyWebhookSignature env key
  end.

Definition webhookEndpoint (env : Env) (p : SignedProvider) (key : string) :
    Request -> M Reply :=
  match p with
  | SignedDoorDash => doorDashWebhook env key
  | SignedInstacart => instacartWebhook env key
  end.

(** The property of an event that holds its type, the types the provider's
    service has a handler for, and the property those handlers log. *)
Definition eventProperty (p : SignedProvider) : string :=
  match p with
  | SignedDoorDash => "event_name"
  | SignedInstacart => "event_type"
  end.

Definition handledEvents (p : SignedProvider) : list string :=
  match p with
  | SignedDoorDash =>
      ["delivery.created"; "delivery.confirmed"; "delivery.picked_up";
       "delivery.delivered"; "delivery.cancelled"; "delivery.returned"]
  | SignedInstacart =>
      ["order.created"; "order.shopping"; "order.delivering"; "order.delivered";
       "order.cancelled"; "item.replaced"; "item.refunded"]
  end.

Definition referenceProperty (p : SignedProvider) : string :=
  match p with
  | SignedDoorDash => "external_delivery_id"
  | SignedInstacart => "order_id"
  end.

(** The values the endpoint of [p] writes into its log lines while it
    processes [event]: the type, the id, and for a type that has a handler
    the reference the handler logs. *)
Definition logged (p : SignedProvider) (event : jsval) : list jsval :=
  [field (eventProperty p) event; field "event_id" event]
  ++ (if is_case (handledEvents p) (field (eventProperty p) event)
      then [field (referenceProperty p) event]
      else []).

(** An event the endpoint of [p] gets through: it is not [null] or
    [undefined], and what is logged of it can be converted to a string. *)
Definition processable (p : SignedProvider) (event : jsval) : bool :=
  negb (nullish event) && forallb printable (logged p event).

Definition failureOf (p : SignedProvider) : string :=
  match p with
  | SignedDoorDash => "Failed to process DoorDash webhook"
  | SignedInstacart => "Failed to process Instacart webhook"
  end.

(* ===================================================================== *)
(** * Sample environments and requests *)
(* ===================================================================== *)

Definition letter (n : nat) : string :=
  String (Ascii.ascii_of_nat (97 + n mod 26)) "".

(** A clock that advances one millisecond per draw, a stand-in digest, and
    providers that are all unreachable. *)
Definition offline : Env :=
  {| clock := fun n => 1700000000000 + Z.of_nat n;
     uuidv4 := fun n => "uuid-" ++ letter n;
     createHmac_sha256_hex := fun key text => key ++ "/" ++ text;
     JSON_stringify := fun v => if nullish v then None else Some "{}";
     refreshAccessToken := fun _ _ => Throw "timeout of 30000ms exceeded";
     requestRide := fun _ _ _ => Throw "timeout of 30000ms exceeded";
     getDeliveryQuote := fun _ _ => Throw "timeout of 30000ms exceeded";
     createDelivery := fun _ _ => Throw "timeout of 30000ms exceeded";
     getOrderEstimate := fun _ _ => Throw "timeout of 30000ms exceeded";
     createOrder := fun _ _ => Throw "timeout of 30000ms exceeded" |}.

(** The same, with Uber answering and DoorDash still unreachable. *)
Definition uberOnly : Env :=
  {| clock := clock offline; uuidv4 := uuidv4 offline;
     createHmac_sha256_hex := createHmac_sha256_hex offline;
     JSON_stringify := JSON_stringify offline;
     refreshAccessToken := fun _ refreshToken =>
       Ok {| access_token := "fresh-" ++ refreshToken; expires_in := 3600 |};
     requestRide := fun _ _ _ => Ok "ride-1";
     getDeliveryQuote := getDeliveryQuote offline;
     createDelivery := createDelivery offline;
     getOrderEstimate := getOrderEstimate offline;
     createOrder := createOrder offline |}.

Definition emptyWorld : World :=
  {| catalogCache := ∅; orderKeys := ∅; tokenCache := ∅;
     ticks := 0; outbound := [] |}.

Definition product (i n : string) (p : float) (a : bool) (m : jsval) : UpsellItem :=
  {| item_id := i; category := LOCAL_ACTIVITIES; name := n; description := "";
     item_price := p; item_currency := "USD"; imageUrl := None;
     available := a; item_metadata := m |}.

Definition sampleCatalog : list UpsellItem :=
  [ product "early-checkin" "Early Check-in" 5000 true JUndefined;
    product "city-tour" "City Tour Package" 12000 true JUndefined;
    product "spa" "Spa Access" 9000 false JUndefined;
    product "ride" "Uber Ride" 0 true (JObj [("provider", JStr "uber")]);
    product "food" "DoorDash Food Delivery" 0 true (JObj [("provider", JStr "doordash")]) ].

(** A property whose catalogue is in the cache. *)
Definition hotel : World :=
  {| catalogCache := {[ "property-123" := sampleCatalog ]};
     orderKeys := ∅; tokenCache := ∅; ticks := 0; outbound := [] |}.

Definition line (i : string) (q : float) (m p : jsval) : DtoItem :=
  {| dto_upsellId := i; dto_quantity := q; dto_metadata := m; dto_price := p |}.

Definition basket (lines : list DtoItem) : CreateUpsellOrderDto :=
  {| dto_reservationId := "res-1"; dto_items := lines; dto_scheduledFor := None |}.

Definition rideDetails : jsval :=
  JObj [("userToken", JStr "user-token"); ("productId", JStr "uberx")].

(** Ride metadata without a product id. *)
Definition tokenOnly : jsval :=
  JObj [("userToken", JStr "user-token"); ("note", JStr "please hurry")].

Definition foodDetails : jsval :=
  JObj [("pickupAddress", JStr "1 Main St"); ("deliveryAddress", JStr "2 Side St");
        ("items", JArr [JStr "pizza"])].

Definition post (b : jsval) (signature : option string) : Request :=
  {| body := b;
     headers := fun h =>
       if String.eqb h "x-doordash-signature" || String.eqb h "x-instacart-signature"
       then signature else None |}.

Definition delivered : jsval :=
  JObj [("event_id", JStr "evt-1"); ("event_name", JStr "DELIVERY_DELIVERED");
        ("event_type", JStr "order.delivered");
        ("external_delivery_id", JStr "D-1")].

(** A token cached for "guest-1", valid for [left] more milliseconds. *)
Definition holding (left : Z) : World :=
  {| catalogCache := ∅; orderKeys := ∅;
     tokenCache := {[ "guest-1" := {| token := "cached-token";
                                      expiresAt := 1700000000000 + left |} ]};
     ticks := 0; outbound := [] |}.

Definition anOrder : UpsellOrder :=
  {| id := "o-1"; reservationId := "res-1"; propertyId := "property-123";
     guestId := "guest-1"; items := []; totalAmount := Num 0; currency := "USD";
     status := CONFIRMED; paymentIntentId := None;
     externalOrderId := Some "ride-1"; externalProvider := Some "uber";
     scheduledFor := None; completedAt := None; cancelledAt := None;
     refundedAt := None; createdAt := 1; updatedAt := 2 |}.

(** The hotel with [anOrder] in the order cache: an order an earlier
    integration has confirmed with Uber. *)
Definition confirmed : World :=
  {| catalogCache := {[ "property-123" := sampleCatalog ]};
     orderKeys := {[ "o-1" := JSON_stringify_order anOrder ]}; tokenCache := ∅;
     ticks := 0; outbound := [] |}.

(** One early check-in, with a price of the caller's own attached. *)
Definition earlyCheckin : CreateUpsellOrderDto :=
  basket [line "early-checkin" 1 JUndefined (JNum 1)].

(** Two city tours and one early check-in, each with a price of the
    caller's own attached. *)
Definition tourAndCheckin : CreateUpsellOrderDto :=
  basket [line "city-tour" 2 JUndefined (JNum 1);
          line "early-checkin" 1 JUndefined (JNum 1)].

(** A ride and a food delivery, both with the metadata their integration
    asks for. *)
Definition rideAndFood : CreateUpsellOrderDto :=
  basket [line "ride" 1 rideDetails JUndefined; line "food" 1 foodDetails JUndefined].

(** A good line, then one that is not available, then an unknown one. *)
Definition mixed : CreateUpsellOrderDto :=
  basket [line "early-checkin" 2 JUndefined JUndefined;
          line "spa" 1 JUndefined JUndefined;
          line "massage" 1 JUndefined JUndefined].

(** The order a call returned ([anOrder] if it threw). *)
Definition returned (r : result UpsellOrder * World) : UpsellOrder :=
  match fst r with
  | Ok order => order
  | Throw _ => anOrder
  end.

Definition foodLine : OrderItem :=
  {| upsellId := "food"; quantity := Num 1; price := Num 0; metadata := foodDetails |}.

(** Between [w] and [w'] nothing changed but, possibly, the cached record
    of [order]: every other order, the catalogues and the tokens are the
    same. *)
Definition elsewhere (order : UpsellOrder) (w w' : World) : Prop :=
  (forall j, j <> id order -> orderCache w' !! j = orderCache w !! j)
  /\ catalogCache w' = catalogCache w
  /\ tokenCache w' = tokenCache w.

(** The catalogue item of [upsellId], if any, is bound to no provider. *)
Definition plain (catalog : list UpsellItem) (upsellId : string) : Prop :=
  match findItem catalog upsellId with
  | Some catalogItem => truthy (field "provider" (item_metadata catalogItem)) = false
  | None => True
  end.

Definition rideLine (m : jsval) : OrderItem :=
  {| upsellId := "ride"; quantity := Num 1; price := Num 0; metadata := m |}.

(* ===================================================================== *)
(** * UpsellController (controllers/upsell.controller.ts) *)
(* ===================================================================== *)

(** What a controller sends: [reply.code(c).send({ success, data, error,
    message })]; the status is 200 when [code] is not called. *)
Record HttpReply (A : Type) := {
  http_code : Z;
  http_success : bool;
  http_data : option A;
  http_error : option string;
  http_message : option string;
}.
Arguments http_code {A} _.
Arguments http_success {A} _.
Arguments http_data {A} _.
Arguments http_error {A} _.
Arguments http_message {A} _.

Definition sent {A} (c : Z) (data : A) : HttpReply A :=
  {| http_code := c; http_success := true; http_data := Some data;
     http_error := None; http_message := None |}.

Definition failed {A} (c : Z) (error : string) (message : option string) : HttpReply A :=
  {| http_code := c; http_success := false; http_data := None;
     http_error := Some error; http_message := message |}.

Module UpsellController.

(** [createOrder], after [authenticate] has attached the user: the property
    is the placeholder ['property-123'] whatever the request says. *)
Definition createOrder (env : Env) (body : CreateUpsellOrderDto) (userId : string) :
    M (HttpReply UpsellOrder) :=
  try_catch
    (let propertyId := "property-123" in
     order <- createUpsellOrder env body userId propertyId ;;
     ret (sent 201 order))
    (fun message => ret (failed 500 "Failed to create upsell order" (Some message))).

Definition getOrderById (id : string) : M (HttpReply UpsellOrder) :=
  try_catch
    (order <- getOrderById id ;;
     match order with
     | None => ret (failed 404 "Order not found" None)
     | Some order => ret (sent 200 order)
     end)
    (fun message => ret (failed 500 "Failed to get order" (Some message))).

End UpsellController.

(* ===================================================================== *)
(** * The Uber client's calls and their errors *)
(* ===================================================================== *)

Module UberClient.
Import Axios.

(** What a [catch] of a client method receives. *)
Inductive Thrown :=
| AxiosFailure (error : AxiosError)      (* axios.isAxiosError(error) *)
| OtherError (message : string).

(** [UberAPIError], with the fields of its [context] that [handleError]
    computes. *)
Record UberAPIError := {
  errorMessage : jsval;
  errorCode : jsval;
  statusCode : Z;
  operation : string;
  suggestion : string;
}.

Inductive Outcome (A : Type) :=
| Returned (value : A)
| Raised (error : UberAPIError).
Arguments Returned {A} value.
Arguments Raised {A} error.

(** [a || b] on values. *)
Definition or_else (a b : jsval) : jsval := if truthy a then a else b.

Section Client.

(** [error.message] and [error.response?.data] of an axios error, and the
    base URL chosen by [sandboxMode]. *)
Context (message_of : AxiosError -> string) (data_of : AxiosError -> jsval)
        (baseUrl : string).

Definition suggestionFor (statusCode : Z) : string :=
  if (statusCode =? 400)%Z then
    "Check request parameters and ensure all required fields are provided."
  else if (statusCode =? 401)%Z then
    "OAuth token is invalid or expired. Please re-authenticate the user."
  else if (statusCode =? 403)%Z then
    "Access forbidden. Check API credentials and user permissions."
  else if (statusCode =? 404)%Z then
    "Resource not found. Verify the request ID or product ID is correct."
  else if (statusCode =? 409)%Z then
    "Conflict detected. User may already have an active ride request."
  else if (statusCode =? 422)%Z then
    "Invalid parameters provided. Common issues: surge pricing not confirmed, invalid coordinates."
  else if (statusCode =? 429)%Z then
    "Rate limit exceeded. Implement exponential backoff and retry later."
  else if (statusCode =? 500)%Z || (statusCode =? 503)%Z then
    "Uber service temporarily unavailable. Retry with exponential backoff."
  else
    "Please try again later or contact support.".

Definition handleError (error : Thrown) (operation : string) : UberAPIError :=
  match error with
  | AxiosFailure error =>
      let statusCode :=
        match response_status error with
        | Some s => if (s =? 0)%Z then 500 else s
        | None => 500
        end in
      let errorData := data_of error in
      {| errorMessage :=
           or_else (field "message" errorData)
             (or_else (JStr (message_of error))
                (JStr "An unknown error occurred with Uber API"));
         errorCode := or_else (field "code" errorData) (JStr "UBER_API_ERROR");
         statusCode := statusCode;
         operation := operation;
         suggestion := suggestionFor statusCode |}
  | OtherError message =>
      {| errorMessage := or_else (JStr message) (JStr "Unknown error occurred");
         errorCode := JStr "NETWORK_ERROR";
         statusCode := 0;
         operation := operation;
         suggestion := "Check network connectivity and try again." |}
  end.

(** [requestRide]: [response.data], or the error wrapped by
    [handleError]; with the number of requests sent. *)
Definition requestRide (server : list Settled) : option (Outcome jsval * nat) :=
  run ← axiosInstance Uber server (request (baseUrl ++ "/requests"));
  Some (match settled run with
        | Fulfilled response => Returned (data response)
        | Rejected error => Raised (handleError (AxiosFailure error) "requestRide")
        end,
        attempts run).

(** [getCurrentRide]: "404 means no current ride - this is expected
    behavior". *)
Definition getCurrentRide (server : list Settled) : option (Outcome (option jsval) * nat) :=
  run ← axiosInstance Uber server (request (baseUrl ++ "/requests/current"));
  Some (match settled run with
        | Fulfilled response => Returned (Some (data response))
        | Rejected error =>
            match response_status error with
            | Some s =>
                if (s =? 404)%Z then Returned None
                else Raised (handleError (AxiosFailure error) "getCurrentRide")
            | None => Raised (handleError (AxiosFailure error) "getCurrentRide")
            end
        end,
        attempts run).

End Client.

(** An [error.message], an error without response body, and a response
    body that carries a code. *)
Definition says (text : string) (error : AxiosError) : string := text.

Definition nothing (error : AxiosError) : jsval := JUndefined.


End UberClient.

(* ===================================================================== *)
(** * ServiceRequestService (services/service-request.service.ts) *)
(* ===================================================================== *)

Module ServiceRequests.

Inductive ServiceRequestType := HOUSEKEEPING | MAINTENANCE | AMENITY | CONCIERGE.

Inductive ServiceRequestPriority := LOW | NORMAL | HIGH | URGENT.

Inductive ServiceRequestStatus :=
| PENDING | ASSIGNED | IN_PROGRESS | COMPLETED | CANCELLED.

Record ServiceRequest := {
  id : string;
  reservationId : string;
  propertyId : string;
  guestId : string;
  type : ServiceRequestType;
  priority : ServiceRequestPriority;
  status : ServiceRequestStatus;
  title : string;
  description : string;
  location : option string;
  photoUrls : option (list string);
  assignedTo : option string;
  assignedAt : option Z;
  completedAt : option Z;
  cancelledAt : option Z;
  guestRating : option float;
  guestFeedback : option string;
  estimatedCompletionTime : option Z;
  slaDeadline : Z;
  createdAt : Z;
  updatedAt : Z;
}.

Record CreateServiceRequestDto := {
  c_reservationId : string;
  c_type : ServiceRequestType;
  c_priority : ServiceRequestPriority;
  c_title : string;
  c_description : string;
  c_location : option string;
  c_photoUrls : option (list string);
}.

(** A property of an object that is spread over another one: absent, or
    present with a value that may be [undefined]. *)
Inductive patch (A : Type) :=
| Keep
| Put (value : option A).
Arguments Keep {A}.
Arguments Put {A} value.

Definition spread {A} (existing : option A) (p : patch A) : option A :=
  match p with
  | Keep => existing
  | Put value => value
  end.

(** [UpdateServiceRequestDto] at its declared type.  [status], [assignedTo]
    and [priority] are absent or hold a value; [estimatedCompletionTime] is
    also passed as an explicit [undefined] by [assignServiceRequest]. *)
Record UpdateServiceRequestDto := {
  u_status : option ServiceRequestStatus;
  u_assignedTo : option string;
  u_priority : option ServiceRequestPriority;
  u_estimatedCompletionTime : patch Z;
}.

(** [RateServiceRequestDto]; [r_rating] is [None] when the body has no
    [rating]. *)
Record RateServiceRequestDto := {
  r_rating : option float;
  r_feedback : option string;
}.

(** [config.sla], in minutes. *)
Record SlaConfig := {
  low : Z;
  normal : Z;
  high : Z;
  urgent : Z;
}.

(** The Redis key space [service-request:<id>] and the number of draws
    made from the clock and from [uuidv4]. *)
Record Desk := {
  requests : gmap string ServiceRequest;
  draws : nat;
}.

Definition drawn (n : nat) (d : Desk) : Desk :=
  {| requests := requests d; draws := (n + draws d)%nat |}.

Definition cacheServiceRequest (serviceRequest : ServiceRequest) (d : Desk) : Desk :=
  {| requests := <[id serviceRequest := serviceRequest]> (requests d);
     draws := draws d |}.

Definition getCachedServiceRequest (i : string) (d : Desk) : option ServiceRequest :=
  requests d !! i.

Definition getServiceRequestById (i : string) (d : Desk) : option ServiceRequest :=
  getCachedServiceRequest i d.

Definition getSLAMinutes (sla : SlaConfig) (p : ServiceRequestPriority) : Z :=
  match p with
  | LOW => low sla
  | NORMAL => normal sla
  | HIGH => high sla
  | URGENT => urgent sla
  end.

(** [dayjs(date).add(minutes, 'minute').toDate()] *)
Definition addMinutes (date minutes : Z) : Z := date + minutes * 60000.

(** [isOverdue], at the time [now] that [dayjs()] reads. *)
Definition isOverdue (now : Z) (serviceRequest : ServiceRequest) : bool :=
  match status serviceRequest with
  | COMPLETED | CANCELLED => false
  | _ => (slaDeadline serviceRequest <? now)%Z       (* dayjs().isAfter(deadline) *)
  end.

Section Service.

Context (env : Env) (sla : SlaConfig).

Definition createServiceRequest (dto : CreateServiceRequestDto)
    (guestId propertyId : string) (d : Desk) : ServiceRequest * Desk :=
  let now := clock env (draws d) in
  let slaMinutes := getSLAMinutes sla (c_priority dto) in
  let slaDeadline := addMinutes now slaMinutes in
  let serviceRequest :=
    {| id := uuidv4 env (S (draws d));
       reservationId := c_reservationId dto;
       propertyId := propertyId; guestId := guestId;
       type := c_type dto; priority := c_priority dto; status := PENDING;
       title := c_title dto; description := c_description dto;
       location := c_location dto; photoUrls := c_photoUrls dto;
       assignedTo := None; assignedAt := None; completedAt := None;
       cancelledAt := None; guestRating := None; guestFeedback := None;
       estimatedCompletionTime := None;
       slaDeadline := slaDeadline; createdAt := now; updatedAt := now |} in
  (serviceRequest, cacheServiceRequest serviceRequest (drawn 2 d)).

(** [{ ...existing, ...dto, updatedAt }] *)
Definition merged (existing : ServiceRequest) (dto : UpdateServiceRequestDto)
    (updatedAt : Z) : ServiceRequest :=
  {| id := id existing; reservationId := reservationId existing;
     propertyId := propertyId existing; guestId := guestId existing;
     type := type existing;
     priority := match u_priority dto with
                 | Some p => p
                 | None => priority existing
                 end;
     status := match u_status dto with
               | Some s => s
               | None => status existing
               end;
     title := title existing; description := description existing;
     location := location existing; photoUrls := photoUrls existing;
     assignedTo := match u_assignedTo dto with
                   | Some staff => Some staff
                   | None => assignedTo existing
                   end;
     assignedAt := assignedAt existing; completedAt := completedAt existing;
     cancelledAt := cancelledAt existing;
     guestRating := guestRating existing; guestFeedback := guestFeedback existing;
     estimatedCompletionTime :=
       spread (estimatedCompletionTime existing) (u_estimatedCompletionTime dto);
     slaDeadline := slaDeadline existing; createdAt := createdAt existing;
     updatedAt := updatedAt |}.

Definition with_assignedAt (r : ServiceRequest) (t : Z) : ServiceRequest :=
  {| id := id r; reservationId := reservationId r; propertyId := propertyId r;
     guestId := guestId r; type := type r; priority := priority r;
     status := status r; title := title r; description := description r;
     location := location r; photoUrls := photoUrls r;
     assignedTo := assignedTo r; assignedAt := Some t;
     completedAt := completedAt r; cancelledAt := cancelledAt r;
     guestRating := guestRating r; guestFeedback := guestFeedback r;
     estimatedCompletionTime := estimatedCompletionTime r;
     slaDeadline := slaDeadline r; createdAt := createdAt r;
     updatedAt := updatedAt r |}.

Definition with_completedAt (r : ServiceRequest) (t : Z) : ServiceRequest :=
  {| id := id r; reservationId := reservationId r; propertyId := propertyId r;
     guestId := guestId r; type := type r; priority := priority r;
     status := status r; title := title r; description := description r;
     location := location r; photoUrls := photoUrls r;
     assignedTo := assignedTo r; assignedAt := assignedAt r;
     completedAt := Some t; cancelledAt := cancelledAt r;
     guestRating := guestRating r; guestFeedback := guestFeedback r;
     estimatedCompletionTime := estimatedCompletionTime r;
     slaDeadline := slaDeadline r; createdAt := createdAt r;
     updatedAt := updatedAt r |}.

Definition with_cancelledAt (r : ServiceRequest) (t : Z) : ServiceRequest :=
  {| id := id r; reservationId := reservationId r; propertyId := propertyId r;
     guestId := guestId r; type := type r; priority := priority r;
     status := status r; title := title r; description := description r;
     location := location r; photoUrls := photoUrls r;
     assignedTo := assignedTo r; assignedAt := assignedAt r;
     completedAt := completedAt r; cancelledAt := Some t;
     guestRating := guestRating r; guestFeedback := guestFeedback r;
     estimatedCompletionTime := estimatedCompletionTime r;
     slaDeadline := slaDeadline r; createdAt := createdAt r;
     updatedAt := updatedAt r |}.

(** A string used as a condition. *)
Definition nonempty (s : option string) : bool :=
  match s with
  | Some s => negb (String.eqb s "")
  | None => false
  end.

Definition updateServiceRequest (i : string) (dto : UpdateServiceRequestDto)
    (d : Desk) : result ServiceRequest * Desk :=
  match getServiceRequestById i d with
  | None => (Throw "Service request not found", d)
  | Some existing =>
      let updated := merged existing dto (clock env (draws d)) in
      let stamp := clock env (S (draws d)) in
      let '(updated, n) :=
        match u_status dto with
        | Some ASSIGNED =>
            if nonempty (u_assignedTo dto)
            then (with_assignedAt updated stamp, 2%nat)
            else (updated, 1%nat)
        | Some COMPLETED => (with_completedAt updated stamp, 2%nat)
        | Some CANCELLED => (with_cancelledAt updated stamp, 2%nat)
        | _ => (updated, 1%nat)
        end in
      (Ok updated, cacheServiceRequest updated (drawn n d))
  end.

(** [dto.rating < 1 || dto.rating > 5]; both comparisons are false on
    [undefined]. *)
Definition outOfRange (rating : option float) : bool :=
  match rating with
  | Some r => PrimFloat.ltb r 1 || PrimFloat.ltb 5 r
  | None => false
  end.

Definition rated (existing : ServiceRequest) (dto : RateServiceRequestDto)
    (updatedAt : Z) : ServiceRequest :=
  {| id := id existing; reservationId := reservationId existing;
     propertyId := propertyId existing; guestId := guestId existing;
     type := type existing; priority := priority existing;
     status := status existing;
     title := title existing; description := description existing;
     location := location existing; photoUrls := photoUrls existing;
     assignedTo := assignedTo existing; assignedAt := assignedAt existing;
     completedAt := completedAt existing; cancelledAt := cancelledAt existing;
     guestRating := r_rating dto; guestFeedback := r_feedback dto;
     estimatedCompletionTime := estimatedCompletionTime existing;
     slaDeadline := slaDeadline existing; createdAt := createdAt existing;
     updatedAt := updatedAt |}.

Definition rateServiceRequest (i : string) (dto : RateServiceRequestDto)
    (d : Desk) : result ServiceRequest * Desk :=
  match getServiceRequestById i d with
  | None => (Throw "Service request not found", d)
  | Some existing =>
      match status existing with
      | COMPLETED =>
          if outOfRange (r_rating dto)
          then (Throw "Rating must be between 1 and 5", d)
          else
            let updated := rated existing dto (clock env (draws d)) in
            (Ok updated, cacheServiceRequest updated (drawn 1 d))
      | _ => (Throw "Can only rate completed service requests", d)
      end
  end.

Definition assignServiceRequest (i staffId : string)
    (estimatedCompletion : option Z) (d : Desk) : result ServiceRequest * Desk :=
  updateServiceRequest i
    {| u_status := Some ASSIGNED; u_assignedTo := Some staffId;
       u_priority := None;
       u_estimatedCompletionTime := Put estimatedCompletion |} d.

(** [message.includes(part)] *)
Definition includes (part message : string) : bool :=
  match String.index 0 part message with
  | Some _ => true
  | None => false
  end.

(** [ServiceRequestController.rateServiceRequest]: the status of a failure
    is read off the error message. *)
Definition rateServiceRequest_controller (i : string) (body : RateServiceRequestDto)
    (d : Desk) : HttpReply ServiceRequest * Desk :=
  match rateServiceRequest i body d with
  | (Ok request, d') => (sent 200 request, d')
  | (Throw message, d') =>
      let statusCode :=
        if includes "not found" message || includes "completed" message
        then 400 else 500 in
      (failed statusCode "Failed to rate service request" (Some message), d')
  end.

(** [ServiceRequestController.updateServiceRequest]. *)
Definition updateServiceRequest_controller (i : string) (body : UpdateServiceRequestDto)
    (d : Desk) : HttpReply ServiceRequest * Desk :=
  match updateServiceRequest i body d with
  | (Ok request, d') => (sent 200 request, d')
  | (Throw message, d') =>
      let statusCode := if includes "not found" message then 404 else 500 in
      (failed statusCode "Failed to update service request" (Some message), d')
  end.

End Service.

(** The defaults of [config.sla]. *)
Definition defaultSla : SlaConfig :=
  {| low := 1440; normal := 240; high := 60; urgent := 15 |}.

Definition emptyDesk : Desk := {| requests := ∅; draws := 0 |}.

Definition leak : CreateServiceRequestDto :=
  {| c_reservationId := "res-1"; c_type := MAINTENANCE; c_priority := URGENT;
     c_title := "Leaking tap"; c_description := "The bathroom tap leaks";
     c_location := Some "bathroom"; c_photoUrls := None |}.

(** The desk after the leak has been reported, and the request cached. *)
Definition reported : Desk :=
  snd (createServiceRequest offline defaultSla leak "guest-1" "property-123" emptyDesk).

Definition theLeak : ServiceRequest :=
  fst (createServiceRequest offline defaultSla leak "guest-1" "property-123" emptyDesk).

Definition setStatus (s : ServiceRequestStatus) : UpdateServiceRequestDto :=
  {| u_status := Some s; u_assignedTo := None; u_priority := None;
     u_estimatedCompletionTime := Keep |}.

End ServiceRequests.

(* ===================================================================== *)
(** * Properties of the JSON round trip *)
(* ===================================================================== *)

Section JsonFacts.

Lemma JSON_float_stable n : JSON_number (JSON_float n) = JSON_float n.
Proof.
  unfold JSON_float.
  destruct (PrimFloat.is_finite n) eqn:Hf; [|reflexivity].
  destruct (PrimFloat.is_zero n) eqn:Hz; cbn [JSON_number]; unfold JSON_float.
  - reflexivity.
  - rewrite Hf, Hz. reflexivity.
Qed.

Lemma JSON_number_stable n : JSON_number (JSON_number n) = JSON_number n.
Proof. destruct n; [apply JSON_float_stable|reflexivity]. Qed.

Lemma JSON_value_defined v : v <> JUndefined -> JSON_value v <> JUndefined.
Proof.
  destruct v; cbn; try congruence.
  destruct (JSON_float n); congruence.
Qed.

Lemma undefined_or_not (e : jsval) : e = JUndefined \/ e <> JUndefined.
Proof. destruct e; auto; right; discriminate. Qed.

Lemma JSON_value_stable : forall v, JSON_value (JSON_value v) = JSON_value v.
Proof.
  fix IH 1. intros [ | | b | n | s | elems | props]; try reflexivity.
  - cbn [JSON_value]. pose proof (JSON_float_stable n) as H.
    destruct (JSON_float n) as [m|] eqn:Hn; [|reflexivity].
    cbn [JSON_value]. cbn [JSON_number] in H. rewrite H. reflexivity.
  - cbn [JSON_value]. f_equal.
    induction elems as [|e l IHl]; [reflexivity|].
    rewrite IHl. f_equal.
    destruct (undefined_or_not e) as [->|He]; [reflexivity|].
    pose proof (JSON_value_defined e He) as Hd. pose proof (IH e) as Hi.
    replace (match e with JUndefined => JNull | _ => JSON_value e end)
      with (JSON_value e) by (destruct e; congruence).
    destruct (JSON_value e); congruence.
  - cbn [JSON_value]. f_equal.
    induction props as [|[k e] l IHl]; [reflexivity|].
    destruct (undefined_or_not e) as [->|He]; [exact IHl|].
    pose proof (JSON_value_defined e He) as Hd. pose proof (IH e) as Hi.
    replace ((fix each (l0 : list (string * jsval)) : list (string * jsval) :=
                match l0 with
                | [] => []
                | (k0, e0) :: l1 =>
                    match e0 with
                    | JUndefined => each l1
                    | _ => (k0, JSON_value e0) :: each l1
                    end
                end) ((k, e) :: l))
      with ((k, JSON_value e) ::
            (fix each (l0 : list (string * jsval)) : list (string * jsval) :=
               match l0 with
               | [] => []
               | (k0, e0) :: l1 =>
                   match e0 with
                   | JUndefined => each l1
                   | _ => (k0, JSON_value e0) :: each l1
                   end
               end) l) by (destruct e; congruence).
    rewrite IHl.
    destruct (JSON_value e); try congruence; rewrite Hi; reflexivity.
Qed.

Lemma JSON_item_stable item : JSON_item (JSON_item item) = JSON_item item.
Proof.
  unfold JSON_item. cbn [upsellId quantity price metadata].
  rewrite !JSON_number_stable, JSON_value_stable. reflexivity.
Qed.

(** What has been read from JSON is written and read back as it is. *)
Lemma JSON_roundtrip_stable order :
  JSON_roundtrip (JSON_roundtrip order) = JSON_roundtrip order.
Proof.
  unfold JSON_roundtrip. cbn [id reservationId propertyId guestId items totalAmount
    currency status paymentIntentId externalOrderId externalProvider scheduledFor
    completedAt cancelledAt refundedAt createdAt updatedAt].
  rewrite JSON_number_stable, map_map.
  rewrite (map_ext _ _ JSON_item_stable). reflexivity.
Qed.

Lemma orderCache_lookup w i order :
  orderCache w !! i = Some order ->
  exists written,
    orderKeys w !! i = Some (JSON_stringify_order written)
    /\ order = JSON_roundtrip written.
Proof.
  unfold orderCache. rewrite lookup_fmap.
  destruct (orderKeys w !! i) as [[written]|]; [|discriminate].
  intros [= <-]. eauto.
Qed.

(** A record the cache holds is its own round trip. *)
Lemma cached_is_stable w i order :
  orderCache w !! i = Some order -> JSON_roundtrip order = order.
Proof.
  intros H. destruct (orderCache_lookup _ _ _ H) as (written & _ & ->).
  apply JSON_roundtrip_stable.
Qed.

Lemma getCachedOrder_run i w : getCachedOrder i w = (Ok (orderCache w !! i), w).
Proof.
  unfold getCachedOrder, orderCache. rewrite lookup_fmap.
  destruct (orderKeys w !! i); reflexivity.
Qed.

Lemma orderCache_insert w' w k order :
  orderKeys w' = <[k := JSON_stringify_order order]> (orderKeys w) ->
  orderCache w' = <[k := JSON_roundtrip order]> (orderCache w).
Proof. unfold orderCache. intros ->. rewrite fmap_insert. reflexivity. Qed.

End JsonFacts.

(* ===================================================================== *)
(** * Properties of the retry interceptor *)
(* ===================================================================== *)

Module RetryFacts.
Import Axios.

Lemma not_retryable_surfaces p again error cfg :
  retryable error = false ->
  onRejected p again error cfg = Some (surfaced error).
Proof.
  intros H. unfold onRejected. rewrite H, andb_false_r. reflexivity.
Qed.

(** A request that already carries a non-zero [_retry] is sent once: the
    guard [!originalRequest._retry] is false for it. *)
Lemma marked_request_is_final p server cfg n :
  _retry cfg = Some n -> n <> 0 ->
  axiosInstance p server cfg =
    match server with
    | [] => None
    | Fulfilled response :: _ =>
        Some {| settled := Fulfilled response; attempts := 1; waits := [] |}
    | Rejected error :: _ => Some (surfaced error)
    end.
Proof.
  intros Hr Hn. destruct server as [|[response|error] rest]; try reflexivity.
  cbn [axiosInstance]. unfold onRejected, not_retry. rewrite Hr.
  destruct (Z.eqb_spec n 0) as [->|_]; [contradiction|]. reflexivity.
Qed.

(** X1: whatever the remote end does, a request of the services leads to
    at most two requests on the wire, the first one and one retry, and to
    at most one backoff wait. *)
Lemma at_most_one_retry p server u run :
  axiosInstance p server (request u) = Some run ->
  (attempts run <= 2)%nat /\ (length (waits run) <= 1)%nat.
Proof.
  destruct server as [|[response|error] rest]; cbn [axiosInstance]; try discriminate.
  - intros [= <-]. cbn. lia.
  - unfold onRejected. cbn [not_retry request _retry andb next_retry].
    destruct (retryable error); cbn [andb].
    + change (0 + 1 <=? 3)%Z with true. cbn iota.
      rewrite (marked_request_is_final p rest _ 1) by (reflexivity || lia).
      destruct rest as [|[response|error'] rest']; cbn; try discriminate;
        intros [= <-]; cbn; lia.
    + intros [= <-]. cbn. lia.
Qed.

(** The model answers as soon as the script covers two requests. *)
Lemma two_answers_suffice p server u :
  (2 <= length server)%nat ->
  is_Some (axiosInstance p server (request u)).
Proof.
  destruct server as [|[response|error] [|second rest]]; cbn [length]; try lia;
    intros _; cbn [axiosInstance]; eauto.
  unfold onRejected. cbn [not_retry request _retry andb next_retry].
  destruct (retryable error); cbn [andb]; eauto.
  change (0 + 1 <=? 3)%Z with true. cbn iota.
  destruct second; cbn; eauto.
Qed.

(** C3: two transient failures (a timeout, then a 503) followed by a
    success: the interceptor sends two requests, waits 1000 ms once, and
    surfaces the second failure; the third answer is never asked for.  A
    first failure that is not transient (a 400) is surfaced after one
    request. *)
Theorem retry_gives_up_after_second_failure p u :
  axiosInstance p [Rejected timeout; Rejected (http_error 503); Fulfilled ok]
    (request u)
  = Some {| settled := Rejected (http_error 503);
            attempts := 2;
            waits := [{| log_provider := p; log_delay := 1000;
                         log_attempt := 1 |}] |}
  /\ axiosInstance p [Rejected (http_error 400); Fulfilled ok] (request u)
     = Some (surfaced (http_error 400)).
Proof. split; reflexivity. Qed.

(** C6 fails as stated: a 429 is not classified as retryable, and the
    call is made once, without any backoff wait, although the next answer
    would have been a success. *)
Lemma rate_limited_is_not_retried :
  retryable (http_error 429) = false
  /\ axiosInstance Uber [Rejected (http_error 429); Fulfilled ok]
       (request "https://api.uber.com/v1.2/requests")
     = Some (surfaced (http_error 429))
  /\ axiosInstance Instacart [Rejected (http_error 429); Fulfilled ok]
       (request "https://connect.instacart.com/v2/orders")
     = Some (surfaced (http_error 429)).
Proof. repeat split; reflexivity. Qed.

(** C6, amended: for every provider client and every request, an answer
    with status 429 (and no timeout code) is surfaced to the caller after
    exactly one request and without any wait. *)
Theorem rate_limited_surfaces_immediately p cfg error rest :
  response_status error = Some 429 ->
  code_is "ECONNABORTED" error = false ->
  code_is "ETIMEDOUT" error = false ->
  retryable error = false
  /\ axiosInstance p (Rejected error :: rest) cfg = Some (surfaced error).
Proof.
  intros Hs Ha Ht.
  assert (Hr : retryable error = false).
  { unfold retryable. rewrite Ha, Ht, Hs. reflexivity. }
  split; [exact Hr|]. cbn [axiosInstance].
  apply not_retryable_surfaces, Hr.
Qed.

(** A 429 from DoorDash, with a success scripted behind it. *)
Lemma rate_limited_surfaces_immediately_witness :
  retryable (http_error 429) = false
  /\ axiosInstance DoorDash [Rejected (http_error 429); Fulfilled ok]
       (request "https://openapi.doordash.com/drive/v2/deliveries")
     = Some (surfaced (http_error 429)).
Proof.
  apply (rate_limited_surfaces_immediately DoorDash
           (request "https://openapi.doordash.com/drive/v2/deliveries")
           (http_error 429) [Fulfilled ok]); reflexivity.
Defined.

End RetryFacts.

(* ===================================================================== *)
(** * Properties of the webhook routes *)
(* ===================================================================== *)

Section WebhookFacts.

Context (env : Env).

Lemma timingSafeEqual_true a b : timingSafeEqual a b = Ok true <-> a = b.
Proof.
  unfold timingSafeEqual. split.
  - destruct (String.length a =? String.length b)%nat; [|discriminate].
    intros [= H]. apply String.eqb_eq, H.
  - intros ->. rewrite Nat.eqb_refl, String.eqb_refl. reflexivity.
Qed.

(** X7: the signature check of DoorDash and Instacart accepts exactly the
    hex digest of the payload under the key; any other header value, of
    whatever length, is refused without an exception. *)
Lemma hmacVerify_true key text signature :
  hmacVerify env key (Some text) signature = true
  <-> signature = createHmac_sha256_hex env key text.
Proof.
  unfold hmacVerify. rewrite <- timingSafeEqual_true.
  destruct (timingSafeEqual _ _) as [[|]|]; split; congruence.
Qed.

(** With a signature header that fails the check, the handler answers 401
    whatever [process] would do: it is not run. *)
Lemma signedWebhook_refuses header logged failure verify process request w signature :
  present (headers request header) = Some signature ->
  verify (JSON_stringify env (body request)) signature = false ->
  signedWebhook env header logged failure verify process request w
  = (Ok (refused 401 "Invalid webhook signature"), w).
Proof.
  intros Hp Hv. unfold signedWebhook, try_catch. rewrite Hp, Hv. reflexivity.
Qed.

(** Without a usable signature header the check is skipped and the event
    goes to [process]. *)
Lemma signedWebhook_unsigned header logged failure verify process request w :
  present (headers request header) = None ->
  signedWebhook env header logged failure verify process request w
  = try_catch
      (name <- property logged (body request) ;;
       interpolate name ;;;
       result <- process (body request) ;;
       ret (accepted result))
      (fun _ => ret (refused 500 failure)) w.
Proof.
  intros Hp. unfold signedWebhook. rewrite Hp. reflexivity.
Qed.

(** C2, amended: on the DoorDash and the Instacart endpoint, a request
    whose signature header is present, non-empty and fails verification
    is answered 401, and the state (the order cache included) is exactly
    what it was; this holds for every body. *)
Theorem invalid_signature_is_rejected p key request w signature :
  present (headers request (signatureHeader p)) = Some signature ->
  verifyWebhookSignature env p key (JSON_stringify env (body request)) signature
    = false ->
  webhookEndpoint env p key request w
  = (Ok (refused 401 "Invalid webhook signature"), w).
Proof.
  intros Hp Hv. destruct p; cbn in *;
    unfold doorDashWebhook, instacartWebhook;
    eapply signedWebhook_refuses; eassumption.
Qed.

(** C10: [UberService.verifyWebhookSignature] is constantly [true]; the
    Uber endpoint answers 200 or 500, never 401, and its answer does not
    depend on any header. *)
Theorem uber_webhook_never_rejected_on_signature :
  (forall payload signature,
      UberWebhook.verifyWebhookSignature payload signature = true)
  /\ (forall request w,
        exists reply w',
          uberWebhook env request w = (Ok reply, w')
          /\ (code reply = 200 \/ code reply = 500)
          /\ orderCache w' = orderCache w)
  /\ (forall b h h' w,
        uberWebhook env {| body := b; headers := h |} w
        = uberWebhook env {| body := b; headers := h' |} w).
Proof.
  split; [reflexivity|]. split; [|reflexivity].
  intros [b h] w.
  unfold uberWebhook, uber_processWebhook, try_catch, bind, property, interpolate.
  cbn [body].
  repeat match goal with
         | |- context [if ?c then _ else _] => destruct c; cbn
         end; eauto 10.
Qed.

End WebhookFacts.

(** C2 fails as stated: a request without the signature header (or with an
    empty one) is not verified.  Even with a verifier that refuses every
    signature the event is processed and answered 200, and so it is on both
    endpoints. *)
Lemma unsigned_webhook_is_processed :
  let served t :=
    Ok (accepted {| p_eventId := JStr "evt-1"; p_processedAt := t |}) in
  fst (signedWebhook offline "x-doordash-signature" "event_name"
         "Failed to process DoorDash webhook" (fun _ _ => false)
         (processWebhook offline) (post delivered None) hotel)
    = served 1700000000000
  /\ fst (doorDashWebhook offline "secret" (post delivered None) hotel)
     = served 1700000000000
  /\ fst (instacartWebhook offline "key" (post delivered None) hotel)
     = served 1700000000000
  /\ fst (doorDashWebhook offline "secret" (post delivered (Some "")) hotel)
     = served 1700000000000.
Proof. repeat split; reflexivity. Qed.

(** A forged signature on the DoorDash endpoint. *)
Lemma invalid_signature_is_rejected_witness :
  webhookEndpoint offline SignedDoorDash "secret" (post delivered (Some "forged")) hotel
  = (Ok (refused 401 "Invalid webhook signature"), hotel).
Proof.
  apply (invalid_signature_is_rejected offline SignedDoorDash "secret"
           (post delivered (Some "forged")) hotel "forged"); reflexivity.
Defined.

(* ===================================================================== *)
(** * Properties of the Uber token cache *)
(* ===================================================================== *)

Section TokenFacts.

Context (env : Env).

(** What a refresh does: one call of the token endpoint; on success the
    entry is replaced, with an expiry counted from the time the answer
    arrived; on failure the cache is left as it was and the error
    propagates. *)
Lemma refreshAndCache_run userId refreshToken w :
  refreshAndCache env userId refreshToken w =
    match refreshAccessToken env (ticks w) refreshToken with
    | Ok tokenData =>
        (Ok (access_token tokenData),
         set_tokenCache (tick (called UberRefreshAccessToken w))
           (<[userId := {| token := access_token tokenData;
                           expiresAt := clock env (S (ticks w))
                                        + expires_in tokenData * 1000 |}]>
              (tokenCache w)))
    | Throw m => (Throw m, called UberRefreshAccessToken w)
    end.
Proof.
  unfold refreshAndCache, bind, remote.
  destruct (refreshAccessToken env (ticks w) refreshToken); reflexivity.
Qed.



Lemma getValidToken_uncached userId refreshToken w :
  tokenCache w !! userId = None ->
  getValidToken env userId refreshToken w
  = refreshAndCache env userId refreshToken w.
Proof.
  intros Hc. unfold getValidToken, bind, tokenCache_get. rewrite Hc. reflexivity.
Qed.

End TokenFacts.


(** The margin is no more than that: no margin of more than one
    millisecond describes [getValidToken].  A token with a single
    millisecond left is handed out from the cache and the token endpoint
    is not called. *)
Remark margin_is_one_millisecond :
  getValidToken uberOnly "guest-1" "refresh-1" (holding 1)
  = (Ok "cached-token", tick (holding 1))
  /\ ~ exists safety_margin, 1 < safety_margin /\ refreshes_within safety_margin.
Proof.
  split; [reflexivity|].
  intros (m & Hm & H).
  pose proof (H uberOnly "guest-1" "refresh-1" (holding 1)
                {| token := "cached-token"; expiresAt := 1700000000000 + 1 |}
                eq_refl) as Hrefresh.
  cbn in Hrefresh. specialize (Hrefresh ltac:(lia)). discriminate Hrefresh.
Qed.

(** A token with thirty seconds left is served from the cache. *)
Example getValidToken_reuses_fresh_token :
  getValidToken uberOnly "guest-1" "refresh-1" (holding 30000)
  = (Ok "cached-token", tick (holding 30000)).
Proof. reflexivity. Qed.

(** At the instant of expiry the same call goes to the token endpoint and
    caches the fresh token. *)
Example getValidToken_refreshes_at_expiry :
  let '(r, w) := getValidToken uberOnly "guest-1" "refresh-1" (holding 0) in
  r = Ok "fresh-refresh-1"
  /\ outbound w = [UberRefreshAccessToken]
  /\ tokenCache w !! "guest-1"
     = Some {| token := "fresh-refresh-1";
               expiresAt := 1700000000002 + 3600 * 1000 |}.
Proof. vm_compute. repeat split; reflexivity. Qed.

(* ===================================================================== *)
(** * Properties of the order service *)
(* ===================================================================== *)

Section OrderFacts.

Context (env : Env).

(** ** [updateOrderStatus] *)

Lemma updateOrderStatus_missing orderId status eo ep w :
  orderCache w !! orderId = None ->
  updateOrderStatus env orderId status eo ep w = (Throw "Order not found", w).
Proof.
  intros H. unfold updateOrderStatus, bind, getOrderById.
  rewrite getCachedOrder_run, H. reflexivity.
Qed.

(** The run on an order that is in the cache: [updatedAt] is the first
    reading of the clock, a terminal status takes a second one, and the
    record goes back under its own id. *)
Lemma updateOrderStatus_found orderId status eo ep w order :
  orderCache w !! orderId = Some order ->
  let updated :=
    stamp status (spread_status order status eo ep (clock env (ticks w)))
      (clock env (S (ticks w))) in
  updateOrderStatus env orderId status eo ep w
  = (Ok updated,
     set_orderKeys (if terminal status then tick (tick w) else tick w)
       (<[id order := JSON_stringify_order updated]> (orderKeys w))).
Proof.
  intros H. unfold updateOrderStatus, bind, getOrderById.
  rewrite getCachedOrder_run, H. destruct status; reflexivity.
Qed.

(** The record written back is read as it was written: it was made from
    a record the cache held, by setting properties JSON keeps. *)
Lemma updated_is_stable new order eo ep t t' :
  JSON_roundtrip order = order ->
  JSON_roundtrip (stamp new (spread_status order new eo ep t) t')
  = stamp new (spread_status order new eo ep t) t'.
Proof.
  intros H. rewrite <- H at 2.
  destruct new; reflexivity.
Qed.

(** The state an update leaves, as the readers of the cache see it. *)
Lemma updateOrderStatus_stored orderId status eo ep w order :
  orderCache w !! orderId = Some order ->
  let updated :=
    stamp status (spread_status order status eo ep (clock env (ticks w)))
      (clock env (S (ticks w))) in
  let w' := snd (updateOrderStatus env orderId status eo ep w) in
  orderCache w' = <[id order := updated]> (orderCache w)
  /\ catalogCache w' = catalogCache w
  /\ tokenCache w' = tokenCache w
  /\ outbound w' = outbound w.
Proof.
  intros H updated w'. unfold w'.
  rewrite (updateOrderStatus_found _ _ _ _ _ _ H). cbn [snd].
  split.
  - rewrite (orderCache_insert _ w (id order)
               (stamp status (spread_status order status eo ep (clock env (ticks w)))
                  (clock env (S (ticks w))))) by reflexivity.
    rewrite (updated_is_stable status order eo ep _ _ (cached_is_stable _ _ _ H)).
    reflexivity.
  - destruct (terminal status); repeat split.
Qed.

Lemma stamp_same_purchase new order t : same_purchase (stamp new order t) order.
Proof. destruct new; repeat split. Qed.

Lemma stamp_status new order t : status (stamp new order t) = status order.
Proof. destruct new; reflexivity. Qed.

Lemma stamp_external new order t :
  externalOrderId (stamp new order t) = externalOrderId order
  /\ externalProvider (stamp new order t) = externalProvider order
  /\ updatedAt (stamp new order t) = updatedAt order.
Proof. destruct new; repeat split. Qed.

(** C8: on an order that exists, [updateOrderStatus] returns and stores
    the order with the requested status; [completedAt], [cancelledAt] or
    [refundedAt] is set to the current time exactly when the new status is
    COMPLETED, CANCELLED or REFUNDED, and keeps its value otherwise.  When
    no order has the id, the call throws "Order not found" and the state
    is what it was. *)
Theorem updateOrderStatus_applies_status orderId new eo ep w :
  match orderCache w !! orderId with
  | Some order =>
      exists updated w',
        updateOrderStatus env orderId new eo ep w = (Ok updated, w')
        /\ status updated = new
        /\ updatedAt updated = clock env (ticks w)
        /\ completedAt updated =
             (match new with
              | COMPLETED => Some (clock env (S (ticks w)))
              | _ => completedAt order
              end)
        /\ cancelledAt updated =
             (match new with
              | CANCELLED => Some (clock env (S (ticks w)))
              | _ => cancelledAt order
              end)
        /\ refundedAt updated =
             (match new with
              | REFUNDED => Some (clock env (S (ticks w)))
              | _ => refundedAt order
              end)
        /\ orderCache w' = <[id order := updated]> (orderCache w)
        /\ catalogCache w' = catalogCache w
  | None =>
      updateOrderStatus env orderId new eo ep w = (Throw "Order not found", w)
  end.
Proof.
  destruct (orderCache w !! orderId) as [order|] eqn:H.
  - destruct (updateOrderStatus_stored orderId new eo ep w order H)
      as (Hstored & Hcatalog & _).
    rewrite (updateOrderStatus_found _ _ _ _ _ _ H) in *. cbn [snd] in *.
    eexists _, _. split; [reflexivity|].
    split; [destruct new; reflexivity|]. split; [destruct new; reflexivity|].
    split; [destruct new; reflexivity|]. split; [destruct new; reflexivity|].
    split; [destruct new; reflexivity|]. split; assumption.
  - apply updateOrderStatus_missing, H.
Qed.

(** ** The catalogue *)

Lemma getUpsellCatalog_run propertyId w :
  getUpsellCatalog env propertyId w
  = (Ok (resolvedCatalog env propertyId w), afterCatalog env propertyId w).
Proof.
  unfold resolvedCatalog, afterCatalog, getUpsellCatalog, bind, getCachedCatalog.
  destruct (catalogCache w !! propertyId); reflexivity.
Qed.

(** Resolving the catalogue does not touch the orders. *)
Lemma afterCatalog_orders propertyId w :
  orderCache (afterCatalog env propertyId w) = orderCache w.
Proof.
  unfold afterCatalog, getUpsellCatalog, bind, getCachedCatalog.
  destruct (catalogCache w !! propertyId); reflexivity.
Qed.

(** ** Pricing the requested lines *)

(** What [catalog.find] returns is the first item with the id, the one
    whose price is the catalogue price. *)
Lemma findItem_price catalog upsellId c :
  findItem catalog upsellId = Some c ->
  catalogPrice catalog upsellId = item_price c.
Proof.
  unfold findItem. induction catalog as [|c' rest IH]; cbn [find catalogPrice];
    [discriminate|].
  destruct (String.eqb_spec (item_id c') upsellId) as [He|Hne].
  - intros [= <-]. rewrite decide_True by exact He. reflexivity.
  - rewrite decide_False by exact Hne. exact IH.
Qed.

Lemma findItem_listed catalog upsellId c :
  findItem catalog upsellId = Some c ->
  In c catalog /\ item_id c = upsellId.
Proof.
  unfold findItem. intros H. apply find_some in H as [Hin He].
  split; [exact Hin|]. apply String.eqb_eq, He.
Qed.

Lemma mapItems_priced catalog lines : forall acc orderItems total,
  mapItems catalog lines acc = Ok (orderItems, total) ->
  total = fold_left
            (fun acc item =>
               (acc + catalogPrice catalog (dto_upsellId item) * dto_quantity item)%float)
            lines acc
  /\ Forall2 (priced catalog) lines orderItems
  /\ Forall (listed catalog) lines.
Proof.
  induction lines as [|item rest IH]; intros acc orderItems total; cbn [mapItems fold_left].
  - intros [= <- <-]. split; [reflexivity|]. split; constructor.
  - destruct (findItem catalog (dto_upsellId item)) as [c|] eqn:Hf; [|discriminate].
    pose proof (findItem_price _ _ _ Hf) as Hp.
    pose proof (findItem_listed _ _ _ Hf) as Hl.
    destruct (available c); cbn [negb]; [|discriminate].
    destruct (mapItems catalog rest _) as [[tl t]|] eqn:Hm; [|discriminate].
    intros [= <- <-]. destruct (IH _ _ _ Hm) as (-> & Hall & Hlisted).
    rewrite Hp.
    split; [reflexivity|]. split.
    + constructor; [|exact Hall].
      unfold priced. cbn. rewrite Hp. repeat split.
    + constructor; [exists c; exact Hl|exact Hlisted].
Qed.

(** The prices a caller writes into the request are not read. *)
Lemma mapItems_reprice catalog prices lines : forall acc,
  mapItems catalog
    (map (fun item =>
            {| dto_upsellId := dto_upsellId item;
               dto_quantity := dto_quantity item;
               dto_metadata := dto_metadata item;
               dto_price := prices item |}) lines) acc
  = mapItems catalog lines acc.
Proof.
  induction lines as [|item rest IH]; intros acc; cbn [map mapItems]; [reflexivity|].
  cbn [dto_upsellId dto_quantity dto_metadata].
  destruct (findItem catalog (dto_upsellId item)) as [c|]; [|reflexivity].
  destruct (available c); cbn [negb]; [|reflexivity].
  rewrite IH. reflexivity.
Qed.

Lemma mapItems_purchasable catalog lines : forall acc,
  Forall (purchasable catalog) lines ->
  exists orderItems total, mapItems catalog lines acc = Ok (orderItems, total).
Proof.
  induction lines as [|item rest IH]; intros acc Hall; cbn [mapItems]; [eauto|].
  inversion Hall as [|? ? (c & Hf & Ha) Hrest]; subst.
  rewrite Hf, Ha. cbn [negb].
  destruct (IH (acc + item_price c * dto_quantity item)%float Hrest)
    as (tl & t & ->). eauto.
Qed.

(** The first line that fails the check decides the error. *)
Lemma mapItems_first_offence catalog before bad after : forall acc,
  Forall (purchasable catalog) before ->
  ~ purchasable catalog bad ->
  mapItems catalog (before ++ bad :: after)%list acc
  = Throw (match findItem catalog (dto_upsellId bad) with
           | None => "Upsell item not found: " ++ dto_upsellId bad
           | Some catalogItem => "Upsell item not available: " ++ name catalogItem
           end).
Proof.
  induction before as [|item rest IH]; intros acc Hall Hbad.
  - cbn [app mapItems].
    destruct (findItem catalog (dto_upsellId bad)) as [c|] eqn:Hf; [|reflexivity].
    destruct (available c) eqn:Ha; [|reflexivity].
    exfalso. apply Hbad. exists c. auto.
  - inversion Hall as [|? ? (c & Hf & Ha) Hrest]; subst.
    change (((item :: rest) ++ bad :: after)%list)
      with (item :: (rest ++ bad :: after))%list.
    cbn [mapItems]. rewrite Hf, Ha. cbn [negb].
    rewrite (IH _ Hrest Hbad). reflexivity.
Qed.

Lemma purchasable_dec catalog item :
  {purchasable catalog item} + {~ purchasable catalog item}.
Proof.
  unfold purchasable.
  destruct (findItem catalog (dto_upsellId item)) as [c|] eqn:Hf.
  - destruct (available c) eqn:Ha.
    + left. eauto.
    + right. intros (c' & [= <-] & Ha'). congruence.
  - right. intros (c' & [=] & _).
Qed.

(** A request with an offending line has a first one. *)
Lemma first_offence catalog lines :
  Exists (fun item => ~ purchasable catalog item) lines ->
  exists before bad after,
    lines = (before ++ bad :: after)%list
    /\ Forall (purchasable catalog) before
    /\ ~ purchasable catalog bad.
Proof.
  induction lines as [|item rest IH]; intros Hex; [inversion Hex|].
  destruct (purchasable_dec catalog item) as [Hok|Hbad].
  - assert (Hrest : Exists (fun item => ~ purchasable catalog item) rest).
    { inversion Hex; subst; [contradiction|assumption]. }
    destruct (IH Hrest) as (before & bad & after & -> & Hall & Hb).
    exists (item :: before), bad, after. repeat split; auto.
  - exists [], item, rest. repeat split; auto.
Qed.

End OrderFacts.

Section DispatchFacts.

Context (env : Env).

Lemma cached_as_ext order w w' :
  orderCache w' = orderCache w -> cached_as order w -> cached_as order w'.
Proof. unfold cached_as. intros ->. auto. Qed.

Lemma same_purchase_trans a b c :
  same_purchase a b -> same_purchase b c -> same_purchase a c.
Proof.
  unfold same_purchase. intros H1 H2.
  repeat match goal with H : _ /\ _ |- _ => destruct H end.
  repeat split; congruence.
Qed.

Lemma spread_same_purchase order new eo ep t :
  same_purchase (spread_status order new eo ep t) order.
Proof. repeat split. Qed.

(** An update of an order that is cached under its id succeeds, and leaves
    it cached under its id as a record of the same purchase, with the
    status and the external reference of the call. *)
Lemma updateOrderStatus_cached order new eo ep w :
  cached_as order w ->
  exists updated w',
    updateOrderStatus env (id order) new eo ep w = (Ok updated, w')
    /\ orderCache w' !! id order = Some updated
    /\ same_purchase updated order
    /\ status updated = new
    /\ externalOrderId updated = eo
    /\ externalProvider updated = ep.
Proof.
  intros (stored & Hl & Hs).
  assert (Hid : id stored = id order) by apply Hs.
  destruct (updateOrderStatus_stored env (id order) new eo ep w stored Hl)
    as (Hstored & _).
  rewrite (updateOrderStatus_found env _ new eo ep _ _ Hl) in *.
  cbn [snd] in Hstored.
  eexists _, _. split; [reflexivity|].
  split; [rewrite Hstored, Hid; apply lookup_insert_eq|].
  split.
  { eapply same_purchase_trans; [apply stamp_same_purchase|].
    eapply same_purchase_trans; [apply spread_same_purchase|exact Hs]. }
  rewrite stamp_status.
  destruct (stamp_external new (spread_status stored new eo ep (clock env (ticks w)))
              (clock env (S (ticks w)))) as (-> & -> & _).
  repeat split.
Qed.

(** The tail the three integrations share: the provider's reference is
    written to the order. *)
Lemma confirm_settles order reference provider w0 w :
  orderCache w = orderCache w0 ->
  cached_as order w0 ->
  match (updateOrderStatus env (id order) CONFIRMED (Some reference) (Some provider) ;;;
         ret tt) w with
  | (Ok _, w') => cached_as order w'
  | (Throw _, w') => orderCache w' = orderCache w0
  end.
Proof.
  intros Hw Hc. apply (cached_as_ext order w0 w Hw) in Hc.
  destruct (updateOrderStatus_cached order CONFIRMED (Some reference)
              (Some provider) w Hc) as (u & w' & Hrun & Hl & Hs & _).
  unfold bind. rewrite Hrun. cbn. exists u. auto.
Qed.

Lemma processUberRideRequest_settles order item catalogItem w :
  cached_as order w ->
  settles order w (processUberRideRequest env order item catalogItem).
Proof.
  intros Hc. unfold settles, processUberRideRequest.
  destruct (missing "userToken" (metadata item) || missing "productId" (metadata item));
    [reflexivity|].
  unfold try_catch. unfold bind at 1. unfold remote at 1.
  destruct (requestRide env (ticks w) _ _) as [reference|m]; [|reflexivity].
  pose proof (confirm_settles order reference "uber" w
                (called UberRequestRide w) eq_refl Hc) as H.
  destruct ((updateOrderStatus env (id order) CONFIRMED (Some reference)
               (Some "uber") ;;; ret tt) (called UberRequestRide w)) as [[|] w'];
    exact H.
Qed.

Lemma processDoorDashDelivery_settles order item catalogItem w :
  cached_as order w ->
  settles order w (processDoorDashDelivery env order item catalogItem).
Proof.
  intros Hc. unfold settles, processDoorDashDelivery.
  destruct (missing "pickupAddress" (metadata item)
            || missing "deliveryAddress" (metadata item)
            || missing "items" (metadata item)); [reflexivity|].
  unfold try_catch. unfold bind at 1. unfold remote at 1.
  destruct (getDeliveryQuote env (ticks w) _) as [quote|m]; [|reflexivity].
  unfold bind at 1. unfold remote at 1.
  destruct (createDelivery env _ _) as [reference|m]; [|reflexivity].
  pose proof (confirm_settles order reference "doordash" w
                (called DoorDashCreateDelivery (called DoorDashGetDeliveryQuote w))
                eq_refl Hc) as H.
  destruct ((updateOrderStatus env (id order) CONFIRMED (Some reference)
               (Some "doordash") ;;; ret tt) _) as [[|] w']; exact H.
Qed.

Lemma processInstacartOrder_settles order item catalogItem w :
  cached_as order w ->
  settles order w (processInstacartOrder env order item catalogItem).
Proof.
  intros Hc. unfold settles, processInstacartOrder.
  destruct (missing "storeId" (metadata item)
            || missing "items" (metadata item)
            || missing "deliveryAddress" (metadata item)
            || missing "contactPhone" (metadata item)
            || missing "contactEmail" (metadata item)); [reflexivity|].
  unfold try_catch. unfold bind at 1. unfold remote at 1.
  destruct (getOrderEstimate env (ticks w) _) as [estimate|m]; [|reflexivity].
  unfold bind at 1. unfold remote at 1.
  destruct (createOrder env _ _) as [reference|m]; [|reflexivity].
  pose proof (confirm_settles order reference "instacart" w
                (called InstacartCreateOrder (called InstacartGetOrderEstimate w))
                eq_refl Hc) as H.
  destruct ((updateOrderStatus env (id order) CONFIRMED (Some reference)
               (Some "instacart") ;;; ret tt) _) as [[|] w']; exact H.
Qed.

Lemma integration_settles provider order item catalogItem w :
  cached_as order w ->
  settles order w (fst (integration env provider order item catalogItem)).
Proof.
  intros Hc. unfold integration.
  destruct (is_string "uber" provider);
    [apply processUberRideRequest_settles, Hc|].
  destruct (is_string "doordash" provider);
    [apply processDoorDashDelivery_settles, Hc|].
  destruct (is_string "instacart" provider);
    [apply processInstacartOrder_settles, Hc|].
  exact Hc.
Qed.

End DispatchFacts.

Section LoopFacts.

Context (env : Env).

Lemma same_purchase_refl a : same_purchase a a.
Proof. repeat split. Qed.

Lemma same_purchase_sym a b : same_purchase a b -> same_purchase b a.
Proof.
  unfold same_purchase. intros H.
  repeat match goal with H : _ /\ _ |- _ => destruct H end.
  repeat split; congruence.
Qed.

(** One turn of the loop never throws: an exception of the integration
    is caught, and the update in the [catch] finds the order. *)
Lemma processItem_returns order catalog item w :
  cached_as order w ->
  exists w', processItem env order catalog item w = (Ok tt, w')
             /\ cached_as order w'.
Proof.
  intros Hc. unfold processItem.
  destruct (findItem catalog (upsellId item)) as [catalogItem|]; [|eauto].
  destruct (truthy (field "provider" (item_metadata catalogItem))); cbn [negb]; [|eauto].
  pose proof (integration_settles env (field "provider" (item_metadata catalogItem))
                order item catalogItem w Hc) as Hs.
  destruct (integration env _ order item catalogItem) as [call provider].
  unfold settles in Hs. cbn [fst] in Hs. unfold try_catch.
  destruct (call w) as [[[]|m] w1]; [eauto|].
  apply (cached_as_ext order w w1 Hs) in Hc.
  destruct (updateOrderStatus_cached env order PENDING None provider w1 Hc)
    as (u & w2 & Hrun & Hl & Hsame & _).
  unfold bind. rewrite Hrun. cbn. eexists; split; [reflexivity|].
  exists u. auto.
Qed.

Lemma forEachItem_returns order catalog rest : forall w,
  cached_as order w ->
  exists w', forEachItem env order catalog rest w = (Ok tt, w')
             /\ cached_as order w'.
Proof.
  induction rest as [|item rest IH]; intros w Hc; cbn [forEachItem]; [eauto|].
  destruct (processItem_returns order catalog item w Hc) as (w1 & Hrun & Hc1).
  unfold bind. rewrite Hrun. apply IH, Hc1.
Qed.

(** With every provider down, an integration either is the [default]
    branch, which does nothing, or throws. *)
Lemma integration_down provider order item catalogItem w :
  providers_down env ->
  let call := fst (integration env provider order item catalogItem) in
  call w = (Ok tt, w) \/ exists m w', call w = (Throw m, w').
Proof.
  intros (Hride & Hquote & _ & Hestimate & _). unfold integration.
  destruct (is_string "uber" provider); cbn [fst].
  { right. unfold processUberRideRequest.
    destruct (_ || _); [unfold throw; eauto|].
    unfold try_catch. unfold bind at 1. unfold remote at 1.
    destruct (Hride (ticks w) (field "userToken" (metadata item))
                (JObj [("product_id", field "productId" (metadata item));
                       ("start_latitude", field "startLat" (metadata item));
                       ("start_longitude", field "startLng" (metadata item));
                       ("end_latitude", field "endLat" (metadata item));
                       ("end_longitude", field "endLng" (metadata item));
                       ("fare_id", field "fareId" (metadata item))])) as [m ->].
    unfold throw. eauto. }
  destruct (is_string "doordash" provider); cbn [fst].
  { right. unfold processDoorDashDelivery.
    destruct (_ || _); [unfold throw; eauto|].
    unfold try_catch. unfold bind at 1. unfold remote at 1.
    match goal with
    | |- context [getDeliveryQuote env ?t ?a] => destruct (Hquote t a) as [m ->]
    end.
    unfold throw. eauto. }
  destruct (is_string "instacart" provider); cbn [fst].
  { right. unfold processInstacartOrder.
    destruct (_ || _); [unfold throw; eauto|].
    unfold try_catch. unfold bind at 1. unfold remote at 1.
    match goal with
    | |- context [getOrderEstimate env ?t ?a] => destruct (Hestimate t a) as [m ->]
    end.
    unfold throw. eauto. }
  left. reflexivity.
Qed.

Lemma pending_is_cached order w : pending_as order w -> cached_as order w.
Proof. intros (stored & Hl & Hs & _). exists stored. auto. Qed.

Lemma processItem_down order catalog item w :
  providers_down env ->
  pending_as order w ->
  exists w', processItem env order catalog item w = (Ok tt, w')
             /\ pending_as order w'.
Proof.
  intros Hdown Hp. unfold processItem.
  destruct (findItem catalog (upsellId item)) as [catalogItem|]; [|eauto].
  destruct (truthy (field "provider" (item_metadata catalogItem))); cbn [negb]; [|eauto].
  pose proof (integration_settles env (field "provider" (item_metadata catalogItem))
                order item catalogItem w (pending_is_cached _ _ Hp)) as Hs.
  pose proof (integration_down (field "provider" (item_metadata catalogItem))
                order item catalogItem w Hdown) as Hd.
  destruct (integration env _ order item catalogItem) as [call provider].
  unfold settles in Hs. cbn [fst] in Hs, Hd. unfold try_catch.
  destruct Hd as [Hd|(m & w1 & Hd)]; rewrite Hd in *; [eauto|].
  assert (Hc : cached_as order w1)
    by (apply (cached_as_ext order w w1 Hs), pending_is_cached, Hp).
  destruct (updateOrderStatus_cached env order PENDING None provider w1 Hc)
    as (u & w2 & Hrun & Hl & Hsame & Hst & Heo & _).
  unfold bind. rewrite Hrun. cbn. eexists; split; [reflexivity|].
  exists u. auto.
Qed.

Lemma forEachItem_down order catalog rest : forall w,
  providers_down env ->
  pending_as order w ->
  exists w', forEachItem env order catalog rest w = (Ok tt, w')
             /\ pending_as order w'.
Proof.
  induction rest as [|item rest IH]; intros w Hdown Hp; cbn [forEachItem]; [eauto|].
  destruct (processItem_down order catalog item w Hdown Hp) as (w1 & Hrun & Hp1).
  unfold bind. rewrite Hrun. apply IH; assumption.
Qed.

(** The integrations use nothing of the order but its id. *)
Lemma forEachItem_id a b catalog rest w :
  id a = id b ->
  forEachItem env a catalog rest w = forEachItem env b catalog rest w.
Proof.
  intros H. revert w. induction rest as [|item rest IH]; intros w; [reflexivity|].
  cbn [forEachItem]. unfold bind, processItem, integration, processUberRideRequest,
    processDoorDashDelivery, processInstacartOrder.
  rewrite H.
  match goal with
  | |- match ?m with _ => _ end = _ => destruct m as [[[]|e] w1]
  end; [apply IH|reflexivity].
Qed.

(** Once [cacheOrder] has written a new order, the cache holds the order
    as JSON keeps it. *)
Lemma written_is_pending w0 w1 order :
  orderKeys w1 = <[id order := JSON_stringify_order order]> (orderKeys w0) ->
  status order = PENDING ->
  externalOrderId order = None ->
  pending_as (JSON_roundtrip order) w1.
Proof.
  intros Hw Hst He. exists (JSON_roundtrip order).
  split; [rewrite (orderCache_insert _ _ _ _ Hw); apply lookup_insert_eq|].
  split; [apply same_purchase_refl|]. split; assumption.
Qed.

(** [createUpsellOrder], step by step. *)
Lemma createUpsellOrder_run dto guestId propertyId w :
  createUpsellOrder env dto guestId propertyId w =
    let catalog := resolvedCatalog env propertyId w in
    let w0 := afterCatalog env propertyId w in
    match mapItems catalog (dto_items dto) 0 with
    | Throw e => (Throw e, w0)
    | Ok (orderItems, total) =>
        let order := newOrder env dto guestId propertyId orderItems total (ticks w0) in
        let w1 := set_orderKeys (tick (tick (tick w0)))
                    (<[id order := JSON_stringify_order order]> (orderKeys w0)) in
        match processExternalIntegrations env order catalog w1 with
        | (Ok _, w') => (Ok order, w')
        | (Throw e, w') => (Throw e, w')
        end
    end.
Proof.
  unfold createUpsellOrder. unfold bind at 1. rewrite getUpsellCatalog_run.
  unfold bind at 1. unfold lift. cbn zeta.
  destruct (mapItems _ _ _) as [[orderItems total]|e]; reflexivity.
Qed.

End LoopFacts.

Section CreateOrderFacts.

Context (env : Env).

(** C1: when [createUpsellOrder] returns an order, its [totalAmount] is
    the sum over the requested lines of the catalogue price of the line's
    [upsellId] (the price of the first catalogue item with that id) times
    the requested quantity; every line of the order carries that catalogue
    price, every requested id is one of the catalogue, and the call
    behaves the same whatever [price] properties the caller puts on the
    requested lines. *)
Theorem totalAmount_is_catalog_total dto guestId propertyId w order w' :
  createUpsellOrder env dto guestId propertyId w = (Ok order, w') ->
  let catalog := resolvedCatalog env propertyId w in
  totalAmount order = Num (catalogTotal catalog (dto_items dto))
  /\ Forall2 (priced catalog) (dto_items dto) (items order)
  /\ Forall (listed catalog) (dto_items dto)
  /\ forall prices,
       createUpsellOrder env (reprice prices dto) guestId propertyId w
       = (Ok order, w').
Proof.
  intros Hrun catalog.
  assert (Hsame : forall prices,
             createUpsellOrder env (reprice prices dto) guestId propertyId w
             = createUpsellOrder env dto guestId propertyId w).
  { intros prices. rewrite !createUpsellOrder_run. cbn [reprice dto_items].
    rewrite mapItems_reprice. reflexivity. }
  split; [|split; [|split; [|intros prices; rewrite Hsame; exact Hrun]]].
  all: rewrite createUpsellOrder_run in Hrun; cbn zeta in Hrun; fold catalog in Hrun.
  all: destruct (mapItems catalog (dto_items dto) 0) as [[orderItems total]|e] eqn:Hm;
    [|discriminate].
  all: destruct (mapItems_priced catalog _ _ _ _ Hm) as (Htotal & Hlines & Hlisted).
  all: destruct (processExternalIntegrations env _ catalog _) as [[u|e] w2];
    [|discriminate].
  all: injection Hrun as <- <-; cbn [totalAmount items newOrder].
  - rewrite Htotal. reflexivity.
  - exact Hlines.
  - exact Hlisted.
Qed.

(** C5, amended: when some requested line is missing from the resolved
    catalogue or is present with [available = false], [createUpsellOrder]
    throws, and the first such line in request order decides the error:
    "Upsell item not found: <id>" when its id is absent, "Upsell item not
    available: <name>" when the item is there.  The only state change is
    the catalogue resolution; the order cache is what it was (no order is
    created) and no provider is called. *)
Theorem createUpsellOrder_rejects_invalid_items dto guestId propertyId w :
  let catalog := resolvedCatalog env propertyId w in
  Exists (fun item => ~ purchasable catalog item) (dto_items dto) ->
  exists before bad after message w',
    dto_items dto = (before ++ bad :: after)%list
    /\ Forall (purchasable catalog) before
    /\ createUpsellOrder env dto guestId propertyId w = (Throw message, w')
    /\ orderCache w' = orderCache w
    /\ outbound w' = outbound w
    /\ match findItem catalog (dto_upsellId bad) with
       | None => message = "Upsell item not found: " ++ dto_upsellId bad
       | Some catalogItem =>
           available catalogItem = false
           /\ message = "Upsell item not available: " ++ name catalogItem
       end.
Proof.
  intros catalog Hex.
  destruct (first_offence catalog _ Hex) as (before & bad & after & Hsplit & Hall & Hbad).
  exists before, bad, after. eexists _, (afterCatalog env propertyId w).
  split; [exact Hsplit|]. split; [exact Hall|].
  split.
  { rewrite createUpsellOrder_run. cbn zeta. fold catalog.
    rewrite Hsplit, (mapItems_first_offence catalog before bad after 0 Hall Hbad).
    reflexivity. }
  split; [apply afterCatalog_orders|].
  split.
  { unfold afterCatalog, getUpsellCatalog, bind, getCachedCatalog.
    destruct (catalogCache w !! propertyId); reflexivity. }
  destruct (findItem catalog (dto_upsellId bad)) as [c|] eqn:Hf; [|reflexivity].
  split; [|reflexivity].
  destruct (available c) eqn:Ha; [|reflexivity].
  exfalso. apply Hbad. exists c. auto.
Qed.

(** C4: once every requested line has passed the catalogue check,
    [createUpsellOrder] returns the order, with status PENDING, whatever
    the providers do: no exception of an integration leaves the loop.
    The order is persisted: the cache holds under its id a record of the
    same purchase as the order read back from its JSON text (the numbers
    and the metadata are the ones JSON keeps); when every provider call
    throws, the cached record is PENDING and has no external reference. *)
Theorem createUpsellOrder_survives_dispatch_failures dto guestId propertyId w :
  Forall (purchasable (resolvedCatalog env propertyId w)) (dto_items dto) ->
  exists order w',
    createUpsellOrder env dto guestId propertyId w = (Ok order, w')
    /\ status order = PENDING
    /\ cached_as (JSON_roundtrip order) w'
    /\ (providers_down env -> pending_as (JSON_roundtrip order) w').
Proof.
  intros Hall.
  destruct (mapItems_purchasable (resolvedCatalog env propertyId w) _ 0%float Hall)
    as (orderItems & total & Hm).
  rewrite createUpsellOrder_run. cbn zeta. rewrite Hm.
  set (order := newOrder env dto guestId propertyId orderItems total _).
  set (w1 := set_orderKeys _ _).
  assert (Hp : pending_as (JSON_roundtrip order) w1)
    by (apply (written_is_pending (afterCatalog env propertyId w)); reflexivity).
  unfold processExternalIntegrations.
  rewrite (forEachItem_id env order (JSON_roundtrip order)) by reflexivity.
  destruct (forEachItem_returns env (JSON_roundtrip order)
              (resolvedCatalog env propertyId w)
              (items order) w1 (pending_is_cached _ _ Hp)) as (w2 & Hrun & Hc).
  rewrite Hrun.
  exists order, w2. split; [reflexivity|]. split; [reflexivity|].
  split; [exact Hc|].
  intros Hdown.
  destruct (forEachItem_down env (JSON_roundtrip order)
              (resolvedCatalog env propertyId w)
              (items order) w1 Hdown Hp) as (w2' & Hrun' & Hp').
  rewrite Hrun in Hrun'. injection Hrun' as <-. exact Hp'.
Qed.

(** C9: [updateOrderStatus] writes the [externalOrderId] and
    [externalProvider] of the call over the stored ones, [None] included,
    and keeps every field of the purchase.  So when an integration throws
    in [processExternalIntegrations], the update in the [catch] leaves the
    order PENDING with no external reference, whatever reference an
    earlier integration had stored. *)
Theorem external_reference_is_overwritten order stored w :
  orderCache w !! id order = Some stored ->
  same_purchase stored order ->
  (forall new eo ep,
      exists updated w',
        updateOrderStatus env (id order) new eo ep w = (Ok updated, w')
        /\ orderCache w' = <[id order := updated]> (orderCache w)
        /\ externalOrderId updated = eo
        /\ externalProvider updated = ep
        /\ same_purchase updated stored)
  /\ (forall catalog item catalogItem message w1,
        findItem catalog (upsellId item) = Some catalogItem ->
        let provider := field "provider" (item_metadata catalogItem) in
        truthy provider = true ->
        fst (integration env provider order item catalogItem) w
          = (Throw message, w1) ->
        exists updated w2,
          processItem env order catalog item w = (Ok tt, w2)
          /\ orderCache w2 !! id order = Some updated
          /\ status updated = PENDING
          /\ externalOrderId updated = None
          /\ externalProvider updated
             = snd (integration env provider order item catalogItem)
          /\ same_purchase updated stored).
Proof.
  intros Hl Hsame.
  assert (Hid : id stored = id order) by apply Hsame.
  assert (Hc : cached_as order w) by (exists stored; auto).
  split.
  - intros new eo ep.
    destruct (updateOrderStatus_stored env (id order) new eo ep w stored Hl)
      as (Hstored & _).
    rewrite (updateOrderStatus_found env _ new eo ep _ _ Hl) in *.
    cbn [snd] in Hstored.
    eexists _, _. split; [reflexivity|]. split; [rewrite <- Hid; exact Hstored|].
    destruct (stamp_external new (spread_status stored new eo ep (clock env (ticks w)))
                (clock env (S (ticks w)))) as (-> & -> & _).
    split; [reflexivity|]. split; [reflexivity|].
    eapply same_purchase_trans; [apply stamp_same_purchase|].
    apply spread_same_purchase.
  - intros catalog item catalogItem message w1 Hf provider Ht Hthrow.
    unfold processItem. rewrite Hf. fold provider. rewrite Ht. cbn [negb].
    pose proof (integration_settles env provider order item catalogItem w Hc) as Hs.
    unfold settles in Hs. rewrite Hthrow in Hs.
    destruct (integration env provider order item catalogItem) as [call provider'].
    cbn [fst snd] in *. unfold try_catch. rewrite Hthrow.
    apply (cached_as_ext order w w1 Hs) in Hc.
    destruct (updateOrderStatus_cached env order PENDING None provider' w1 Hc)
      as (u & w2 & Hrun & Hlu & Hsu & Hst & Heo & Hep).
    unfold bind. rewrite Hrun. cbn. exists u, w2.
    repeat (split; [first [reflexivity | assumption]|]).
    eapply same_purchase_trans; [exact Hsu|]. apply same_purchase_sym, Hsame.
Qed.

End CreateOrderFacts.

(* ===================================================================== *)
(** * The properties at sample requests *)
(* ===================================================================== *)

(** In [offline] every provider call throws. *)
Lemma offline_is_down : providers_down offline.
Proof. repeat split; intros; eexists; reflexivity. Qed.

(** An accepted order for two city tours and one early check-in. *)
Lemma totalAmount_is_catalog_total_witness :
  let r := createUpsellOrder offline tourAndCheckin "guest-1" "property-123" hotel in
  r = (Ok (returned r), snd r)
  /\ totalAmount (returned r)
     = Num (catalogTotal sampleCatalog (dto_items tourAndCheckin))
  /\ Forall2 (priced sampleCatalog) (dto_items tourAndCheckin) (items (returned r))
  /\ Forall (listed sampleCatalog) (dto_items tourAndCheckin).
Proof.
  intros r.
  assert (H : r = (Ok (returned r), snd r)) by (vm_compute; reflexivity).
  split; [exact H|].
  destruct (totalAmount_is_catalog_total offline tourAndCheckin "guest-1"
              "property-123" hotel (returned r) (snd r) H) as (Ht & Hl & Hc & _).
  split; [exact Ht|]. split; [exact Hl | exact Hc].
Defined.

(** The scenario of the specification: one early check-in at 5000 gives an
    order of 5000, PENDING, whatever price the caller attached; two city
    tours at 12000 with it give 29000. *)
Example early_checkin_order :
  let order := returned (createUpsellOrder offline earlyCheckin "guest-1"
                           "property-123" hotel) in
  let larger := returned (createUpsellOrder offline tourAndCheckin "guest-1"
                            "property-123" hotel) in
  totalAmount order = Num 5000 /\ status order = PENDING
  /\ map price (items order) = [Num 5000]
  /\ totalAmount larger = Num 29000
  /\ map price (items larger) = [Num 12000; Num 5000]
  /\ catalogTotal sampleCatalog (dto_items tourAndCheckin) = 29000%float.
Proof. vm_compute. repeat split; reflexivity. Qed.

(** A quantity beyond the range of the numbers ([JSON.parse] reads 1e999
    as [Infinity]) gives an order whose total is [Infinity]; the text in
    the cache has [null] for it, and so has the order read back. *)
Example unbounded_quantity_is_cached_as_null :
  let r := createUpsellOrder offline
             (basket [line "early-checkin" infinity JUndefined JUndefined])
             "guest-1" "property-123" hotel in
  totalAmount (returned r) = Num infinity
  /\ fst (getOrderById (id (returned r)) (snd r))
     = Ok (Some (JSON_roundtrip (returned r)))
  /\ totalAmount (JSON_roundtrip (returned r)) = Null
  /\ map quantity (items (JSON_roundtrip (returned r))) = [Null].
Proof. vm_compute. repeat split; reflexivity. Qed.

(** A request whose second line is not available and whose third is
    unknown. *)
Lemma createUpsellOrder_rejects_invalid_items_witness :
  exists before bad after message w',
    dto_items mixed = (before ++ bad :: after)%list
    /\ Forall (purchasable (resolvedCatalog offline "property-123" hotel)) before
    /\ createUpsellOrder offline mixed "guest-1" "property-123" hotel
       = (Throw message, w')
    /\ orderCache w' = orderCache hotel
    /\ outbound w' = outbound hotel
    /\ match findItem (resolvedCatalog offline "property-123" hotel)
               (dto_upsellId bad) with
       | None => message = "Upsell item not found: " ++ dto_upsellId bad
       | Some catalogItem =>
           available catalogItem = false
           /\ message = "Upsell item not available: " ++ name catalogItem
       end.
Proof.
  apply (createUpsellOrder_rejects_invalid_items offline mixed "guest-1"
           "property-123" hotel).
  apply Exists_cons_tl, Exists_cons_hd.
  intros (c & Hf & Ha). vm_compute in Hf. injection Hf as <-. discriminate Ha.
Defined.

(** C5 fails as stated when the request has both kinds of offending line:
    "massage" is requested and absent from the catalogue, yet the error is
    the item-unavailable one of the line before it. *)
Lemma absent_item_reported_as_unavailable :
  In (line "massage" 1 JUndefined JUndefined) (dto_items mixed)
  /\ findItem (resolvedCatalog offline "property-123" hotel) "massage" = None
  /\ createUpsellOrder offline mixed "guest-1" "property-123" hotel
     = (Throw "Upsell item not available: Spa Access", hotel).
Proof.
  split; [cbn; auto|]. split; vm_compute; reflexivity.
Qed.

(** An unknown id alone gives the item-not-found error, an unavailable item
    alone the other one. *)
Example rejected_requests :
  createUpsellOrder offline (basket [line "massage" 1 JUndefined JUndefined])
    "guest-1" "property-123" hotel
  = (Throw "Upsell item not found: massage", hotel)
  /\ createUpsellOrder offline (basket [line "spa" 1 JUndefined JUndefined])
       "guest-1" "property-123" hotel
     = (Throw "Upsell item not available: Spa Access", hotel).
Proof. split; vm_compute; reflexivity. Qed.

(** A ride and a food delivery ordered while every provider is down. *)
Lemma createUpsellOrder_survives_dispatch_failures_witness :
  exists order w',
    createUpsellOrder offline rideAndFood "guest-1" "property-123" hotel
    = (Ok order, w')
    /\ status order = PENDING
    /\ cached_as (JSON_roundtrip order) w'
    /\ (providers_down offline -> pending_as (JSON_roundtrip order) w').
Proof.
  apply (createUpsellOrder_survives_dispatch_failures offline rideAndFood
           "guest-1" "property-123" hotel).
  repeat constructor; eexists; split; vm_compute; reflexivity.
Defined.

(** Both integrations are attempted and both fail; the order is returned
    and is cached PENDING. *)
Example all_dispatches_fail :
  let r := createUpsellOrder offline rideAndFood "guest-1" "property-123" hotel in
  fst r = Ok (returned r)
  /\ outbound (snd r) = [UberRequestRide; DoorDashGetDeliveryQuote]
  /\ (status <$> orderCache (snd r) !! id (returned r)) = Some PENDING
  /\ (externalOrderId <$> orderCache (snd r) !! id (returned r)) = Some None.
Proof. vm_compute. repeat split; reflexivity. Qed.

(** An order confirmed with Uber, then a food line whose integration
    throws. *)
Lemma external_reference_is_overwritten_witness :
  exists updated w2,
    processItem offline anOrder sampleCatalog foodLine confirmed = (Ok tt, w2)
    /\ orderCache w2 !! "o-1" = Some updated
    /\ status updated = PENDING
    /\ externalOrderId updated = None
    /\ externalProvider updated = Some "doordash".
Proof.
  destruct (external_reference_is_overwritten offline anOrder anOrder confirmed
              eq_refl (same_purchase_refl anOrder)) as [_ Hfail].
  destruct (Hfail sampleCatalog foodLine
              (product "food" "DoorDash Food Delivery" 0 true
                 (JObj [("provider", JStr "doordash")]))
              "DoorDash delivery creation failed: timeout of 30000ms exceeded"
              (called DoorDashGetDeliveryQuote confirmed)
              eq_refl eq_refl eq_refl)
    as (updated & w2 & Hrun & Hl & Hst & Heo & Hep & _).
  exists updated, w2. auto.
Defined.

(** With Uber answering and DoorDash down, the ride is confirmed first and
    its reference stored; the failure of the food delivery then resets the
    cached order to PENDING and erases the reference.  With the ride alone
    the reference stays. *)
Example reference_lost_after_later_failure :
  let both := createUpsellOrder uberOnly rideAndFood "guest-1" "property-123" hotel in
  let ride := createUpsellOrder uberOnly
                (basket [line "ride" 1 rideDetails JUndefined])
                "guest-1" "property-123" hotel in
  (externalOrderId <$> orderCache (snd ride) !! id (returned ride)) = Some (Some "ride-1")
  /\ (status <$> orderCache (snd ride) !! id (returned ride)) = Some CONFIRMED
  /\ (externalOrderId <$> orderCache (snd both) !! id (returned both)) = Some None
  /\ (externalProvider <$> orderCache (snd both) !! id (returned both))
     = Some (Some "doordash")
  /\ (status <$> orderCache (snd both) !! id (returned both)) = Some PENDING
  /\ status (returned ride) = PENDING.
Proof. vm_compute. repeat split; reflexivity. Qed.

(* ===================================================================== *)
(** * Further properties of the retry interceptor *)
(* ===================================================================== *)

Module InterceptorFacts.
Import Axios.

(** A timeout followed by a 503 and a success: two requests go out. *)
Lemma at_most_one_retry_witness :
  exists run,
    axiosInstance Uber [Rejected timeout; Rejected (http_error 503); Fulfilled ok]
      (request "https://api.uber.com/v1.2/requests") = Some run
    /\ (attempts run <= 2)%nat /\ (length (waits run) <= 1)%nat.
Proof.
  eexists. split; [reflexivity|].
  apply (RetryFacts.at_most_one_retry Uber
           [Rejected timeout; Rejected (http_error 503); Fulfilled ok]
           "https://api.uber.com/v1.2/requests").
  reflexivity.
Defined.

(** X2: a first failure that is a timeout or a 5xx is retried once, after
    1000 ms; when the second answer is a success, the call succeeds with
    that answer after two requests. *)
Theorem transient_failure_is_retried_once p u error response rest :
  retryable error = true ->
  axiosInstance p (Rejected error :: Fulfilled response :: rest) (request u)
  = Some {| settled := Fulfilled response; attempts := 2;
            waits := [{| log_provider := p; log_delay := 1000;
                         log_attempt := 1 |}] |}.
Proof.
  intros H. cbn [axiosInstance]. unfold onRejected.
  cbn [not_retry request _retry andb]. rewrite H. reflexivity.
Qed.

(** A 502 from Instacart followed by a success. *)
Lemma transient_failure_is_retried_once_witness :
  axiosInstance Instacart [Rejected (http_error 502); Fulfilled ok]
    (request "https://api.instacart.com/v2/orders")
  = Some {| settled := Fulfilled ok; attempts := 2;
            waits := [{| log_provider := Instacart; log_delay := 1000;
                         log_attempt := 1 |}] |}.
Proof.
  apply (transient_failure_is_retried_once Instacart
           "https://api.instacart.com/v2/orders" (http_error 502) ok []).
  reflexivity.
Defined.

Lemma pow2_pos k : 0 <= k -> 1 <= 2 ^ k.
Proof. intros H. change 1 with (2 ^ 0). apply Z.pow_le_mono_r; lia. Qed.

(** X3: the backoff delay grows with the attempt number, starts at 1000 ms
    and never exceeds 10000 ms; from the fifth attempt on it is the cap. *)
Theorem backoff_is_bounded n m :
  1 <= n <= m ->
  1000 <= backoff n <= backoff m
  /\ backoff m <= 10000
  /\ (5 <= n -> backoff n = 10000).
Proof.
  intros [Hn Hm]. unfold backoff.
  assert (H1 : 1 <= 2 ^ (n - 1)) by (apply pow2_pos; lia).
  assert (H2 : 2 ^ (n - 1) <= 2 ^ (m - 1)) by (apply Z.pow_le_mono_r; lia).
  repeat split; try lia.
  intros H5.
  assert (H3 : 2 ^ 4 <= 2 ^ (n - 1)) by (apply Z.pow_le_mono_r; lia).
  change (2 ^ 4) with 16 in H3. lia.
Qed.

(** Attempts 2 and 7. *)
Lemma backoff_is_bounded_witness :
  1000 <= backoff 2 <= backoff 7 /\ backoff 7 <= 10000.
Proof.
  destruct (backoff_is_bounded 2 7 ltac:(lia)) as (H1 & H2 & _).
  split; assumption.
Defined.

End InterceptorFacts.

(* ===================================================================== *)
(** * Further properties of the Uber token cache *)
(* ===================================================================== *)

Section TokenCacheFacts.

Context (env : Env).

(** X4: when the token endpoint fails, [getValidToken] fails with the same
    error after one call of the endpoint, and the token cache is what it
    was: an expired entry stays in place. *)
Theorem failed_refresh_keeps_the_cache userId refreshToken w message :
  (forall t, refreshAccessToken env t refreshToken = Throw message) ->
  match tokenCache w !! userId with
  | Some entry => expiresAt entry <= clock env (ticks w)
  | None => True
  end ->
  fst (getValidToken env userId refreshToken w) = Throw message
  /\ tokenCache (snd (getValidToken env userId refreshToken w)) = tokenCache w
  /\ outbound (snd (getValidToken env userId refreshToken w))
     = (outbound w ++ [UberRefreshAccessToken])%list.
Proof.
  intros Hfail Hexp.
  assert (Hrun : forall w0, refreshAndCache env userId refreshToken w0
                            = (Throw message, called UberRefreshAccessToken w0)).
  { intros w0. rewrite refreshAndCache_run, Hfail. reflexivity. }
  unfold getValidToken, bind, tokenCache_get.
  destruct (tokenCache w !! userId) as [entry|].
  - unfold newDate.
    destruct (Z.ltb_spec (clock env (ticks w)) (expiresAt entry)); [lia|].
    rewrite Hrun. repeat split.
  - rewrite Hrun. repeat split.
Qed.

(** X5: a token obtained by a refresh is served from the cache on the next
    call, without calling the token endpoint again, as long as the clock
    has not reached the expiry computed from [expires_in]. *)
Theorem refreshed_token_is_reused userId refreshToken refreshToken' w tokenData :
  tokenCache w !! userId = None ->
  refreshAccessToken env (ticks w) refreshToken = Ok tokenData ->
  clock env (S (S (ticks w)))
    < clock env (S (ticks w)) + expires_in tokenData * 1000 ->
  let first := getValidToken env userId refreshToken w in
  fst first = Ok (access_token tokenData)
  /\ getValidToken env userId refreshToken' (snd first)
     = (Ok (access_token tokenData), tick (snd first))
  /\ outbound (snd first) = (outbound w ++ [UberRefreshAccessToken])%list.
Proof.
  intros Hnone Hok Hclock first.
  assert (Hfirst : first =
            (Ok (access_token tokenData),
             set_tokenCache (tick (called UberRefreshAccessToken w))
               (<[userId := {| token := access_token tokenData;
                               expiresAt := clock env (S (ticks w))
                                            + expires_in tokenData * 1000 |}]>
                  (tokenCache w)))).
  { unfold first. rewrite getValidToken_uncached by exact Hnone.
    rewrite refreshAndCache_run, Hok. reflexivity. }
  rewrite Hfirst. cbn [fst snd]. split; [reflexivity|]. split; [|reflexivity].
  unfold getValidToken, bind, tokenCache_get. cbn [tokenCache set_tokenCache].
  rewrite lookup_insert_eq. unfold newDate.
  cbn [ticks set_tokenCache tick called expiresAt token].
  destruct (Z.ltb_spec (clock env (S (S (ticks w))))
              (clock env (S (ticks w)) + expires_in tokenData * 1000)); [|lia].
  reflexivity.
Qed.

(** X6: [getValidToken] for one user leaves the cached tokens of all other
    users, the catalogue cache and the order cache as they were, and never
    removes an entry. *)
Theorem getValidToken_frame userId other refreshToken w :
  other <> userId ->
  let w' := snd (getValidToken env userId refreshToken w) in
  tokenCache w' !! other = tokenCache w !! other
  /\ (is_Some (tokenCache w !! userId) -> is_Some (tokenCache w' !! userId))
  /\ orderCache w' = orderCache w
  /\ catalogCache w' = catalogCache w.
Proof.
  intros Hne w'.
  assert (Hrefresh : forall w0,
             let w1 := snd (refreshAndCache env userId refreshToken w0) in
             tokenCache w1 !! other = tokenCache w0 !! other
             /\ (is_Some (tokenCache w0 !! userId) -> is_Some (tokenCache w1 !! userId))
             /\ orderCache w1 = orderCache w0
             /\ catalogCache w1 = catalogCache w0).
  { intros w0. rewrite refreshAndCache_run.
    destruct (refreshAccessToken env (ticks w0) refreshToken); cbn.
    - rewrite lookup_insert_ne by congruence. rewrite lookup_insert_eq.
      repeat split; eauto.
    - repeat split; auto. }
  unfold w', getValidToken, bind, tokenCache_get.
  destruct (tokenCache w !! userId) as [entry|] eqn:Hc.
  - unfold newDate. destruct (clock env (ticks w) <? expiresAt entry)%Z.
    + cbn. rewrite Hc. repeat split; eauto.
    + destruct (Hrefresh (tick w)) as (H1 & H2 & H3 & H4).
      split; [exact H1|]. split; [|split; [exact H3 | exact H4]].
      intros _. apply H2. change (tokenCache (tick w)) with (tokenCache w).
      rewrite Hc. eauto.
  - destruct (Hrefresh w) as (H1 & H2 & H3 & H4). repeat split; auto.
    intros [x Hx]. discriminate Hx.
Qed.

End TokenCacheFacts.

(** With the token endpoint down, an expired entry is neither served nor
    replaced. *)
Lemma failed_refresh_keeps_the_cache_witness :
  fst (getValidToken offline "guest-1" "refresh-1" (holding 0))
    = Throw "timeout of 30000ms exceeded"
  /\ tokenCache (snd (getValidToken offline "guest-1" "refresh-1" (holding 0)))
     = tokenCache (holding 0)
  /\ outbound (snd (getValidToken offline "guest-1" "refresh-1" (holding 0)))
     = [UberRefreshAccessToken].
Proof.
  apply (failed_refresh_keeps_the_cache offline "guest-1" "refresh-1" (holding 0)
           "timeout of 30000ms exceeded").
  - reflexivity.
  - vm_compute. intros H. discriminate H.
Defined.

(** A first call without an entry, then a second call one millisecond
    later. *)
Lemma refreshed_token_is_reused_witness :
  let first := getValidToken uberOnly "guest-2" "refresh-2" emptyWorld in
  fst first = Ok "fresh-refresh-2"
  /\ getValidToken uberOnly "guest-2" "another" (snd first)
     = (Ok "fresh-refresh-2", tick (snd first))
  /\ outbound (snd first) = [UberRefreshAccessToken].
Proof.
  apply (refreshed_token_is_reused uberOnly "guest-2" "refresh-2" "another"
           emptyWorld {| access_token := "fresh-refresh-2"; expires_in := 3600 |}).
  - reflexivity.
  - reflexivity.
  - cbn. lia.
Defined.

(** A refresh for "guest-2" next to the cached token of "guest-1". *)
Lemma getValidToken_frame_witness :
  let w' := snd (getValidToken uberOnly "guest-2" "refresh-2" (holding 30000)) in
  tokenCache w' !! "guest-1" = tokenCache (holding 30000) !! "guest-1"
  /\ (is_Some (tokenCache (holding 30000) !! "guest-2")
      -> is_Some (tokenCache w' !! "guest-2"))
  /\ orderCache w' = orderCache (holding 30000)
  /\ catalogCache w' = catalogCache (holding 30000).
Proof.
  apply (getValidToken_frame uberOnly "guest-2" "guest-1" "refresh-2" (holding 30000)).
  discriminate.
Defined.

(* ===================================================================== *)
(** * Further properties of the webhook routes *)
(* ===================================================================== *)

Section WebhookRouteFacts.

Context (env : Env).

(** How the processing of an event that is not [null] ends: with the
    event's id and the time, once everything logged has been converted to
    a string; with the [TypeError] of the first conversion that fails
    otherwise, nothing being changed. *)
Lemma processEvent_run name reference events event w :
  nullish event = false ->
  processEvent env name reference events event w
  = if printable (field name event) && printable (field "event_id" event)
       && (if is_case events (field name event)
           then printable (field reference event) else true)
    then (Ok {| p_eventId := field "event_id" event;
                p_processedAt := clock env (ticks w) |}, tick w)
    else (Throw "Cannot convert object to primitive value", w).
Proof.
  intros Hn. unfold processEvent, bind, try_catch, property, interpolate.
  rewrite Hn. unfold ret at 1.
  destruct (printable (field name event)) eqn:H1; [|reflexivity].
  unfold ret at 1 2.
  destruct (printable (field "event_id" event)) eqn:H2; [|reflexivity].
  unfold ret at 1. cbn [andb].
  destruct (is_case events (field name event)).
  - unfold ret at 1.
    destruct (printable (field reference event)); [reflexivity|].
    unfold throw at 1. unfold ret, throw. reflexivity.
  - reflexivity.
Qed.

Lemma webhookEndpoint_cases p key request w :
  webhookEndpoint env p key request w
  = if match present (headers request (signatureHeader p)) with
       | Some signature =>
           negb (verifyWebhookSignature env p key
                   (JSON_stringify env (body request)) signature)
       | None => false
       end
    then (Ok (refused 401 "Invalid webhook signature"), w)
    else if processable p (body request)
         then (Ok (accepted {| p_eventId := field "event_id" (body request);
                               p_processedAt := clock env (ticks w) |}),
               tick w)
         else (Ok (refused 500 (failureOf p)), w).
Proof.
  destruct p; cbn [webhookEndpoint signatureHeader verifyWebhookSignature failureOf].
  all: unfold doorDashWebhook, instacartWebhook, signedWebhook, try_catch.
  all: match goal with
       | |- context [match present ?h with _ => _ end] =>
           destruct (match present h with
                     | Some signature => _
                     | None => false
                     end); [reflexivity|]
       end.
  all: unfold processable, logged, processWebhook, instacart_processWebhook.
  all: cbn [eventProperty referenceProperty handledEvents].
  all: unfold bind at 1; unfold property at 1.
  all: destruct (nullish (body request)) eqn:Hn; [reflexivity|].
  all: unfold ret at 1; unfold bind at 1; unfold interpolate at 1.
  all: cbn [negb andb app forallb].
  all: match goal with
       | |- context [printable (field ?n ?b)] =>
           destruct (printable (field n b)) eqn:H1; [|reflexivity]
       end.
  all: unfold ret at 1; unfold bind at 1.
  all: rewrite (processEvent_run _ _ _ _ _ Hn), H1.
  all: cbn [andb].
  all: destruct (printable (field "event_id" (body request))); [|reflexivity].
  all: cbn [andb].
  all: match goal with
       | |- context [is_case ?l ?v] => destruct (is_case l v)
       end.
  all: cbn [app forallb andb].
  all: repeat match goal with
              | |- context [printable ?v] => destruct (printable v)
              end; reflexivity.
Qed.

(** X8: an event whose signature header is the hex digest of its
    serialised body under the endpoint's key passes the check.  It is then
    answered 200, with its [event_id] and the time of processing, when it
    is not [null] and what the endpoint logs of it (its type, its id and
    for a handled type its reference) can be converted to a string; and it
    is answered 500 otherwise, a signed event with an [event_id] that has
    a property [toString] included.  Only the clock is read. *)
Theorem signed_event_is_accepted p key request w text :
  JSON_stringify env (body request) = Some text ->
  headers request (signatureHeader p) = Some (createHmac_sha256_hex env key text) ->
  createHmac_sha256_hex env key text <> "" ->
  webhookEndpoint env p key request w
  = if processable p (body request)
    then (Ok (accepted {| p_eventId := field "event_id" (body request);
                          p_processedAt := clock env (ticks w) |}),
          tick w)
    else (Ok (refused 500 (failureOf p)), w).
Proof.
  intros Htext Hheader Hne.
  rewrite webhookEndpoint_cases, Hheader, Htext. unfold present.
  destruct (String.eqb_spec (createHmac_sha256_hex env key text) "") as [He|_];
    [contradiction|].
  assert (Hv : verifyWebhookSignature env p key (Some text)
                 (createHmac_sha256_hex env key text) = true).
  { destruct p; cbn; unfold doorDash_verifyWebhookSignature,
      instacart_verifyWebhookSignature, hmacVerify, timingSafeEqual;
      rewrite Nat.eqb_refl, String.eqb_refl; reflexivity. }
  rewrite Hv. reflexivity.
Qed.

(** X9: an event without a usable signature header is not checked at all.
    It is answered 200 with its [event_id] (possibly [undefined]) when it
    is not [null] and what the endpoint logs of it can be converted to a
    string, whatever else it holds, and 500 otherwise; only the clock is
    read. *)
Theorem unsigned_event_is_accepted p key request w :
  present (headers request (signatureHeader p)) = None ->
  webhookEndpoint env p key request w
  = if processable p (body request)
    then (Ok (accepted {| p_eventId := field "event_id" (body request);
                          p_processedAt := clock env (ticks w) |}),
          tick w)
    else (Ok (refused 500 (failureOf p)), w).
Proof.
  intros Hp. rewrite webhookEndpoint_cases, Hp. reflexivity.
Qed.

(** X10: no webhook changes an order.  Each of the three endpoints answers
    200, 401 or 500 (the Uber one never 401), and leaves the order cache,
    the catalogue cache, the token cache and the list of outbound calls as
    they were, for every request. *)
Theorem webhooks_change_no_order request w :
  (forall p key,
      exists reply w',
        webhookEndpoint env p key request w = (Ok reply, w')
        /\ (code reply = 200 \/ code reply = 401 \/ code reply = 500)
        /\ orderCache w' = orderCache w /\ catalogCache w' = catalogCache w
        /\ tokenCache w' = tokenCache w /\ outbound w' = outbound w)
  /\ exists reply w',
       uberWebhook env request w = (Ok reply, w')
       /\ (code reply = 200 \/ code reply = 500)
       /\ orderCache w' = orderCache w /\ catalogCache w' = catalogCache w
       /\ tokenCache w' = tokenCache w /\ outbound w' = outbound w.
Proof.
  split.
  - intros p key. rewrite webhookEndpoint_cases.
    destruct (match present (headers request (signatureHeader p)) with
              | Some signature => _
              | None => false
              end); [eexists _, _; split; [reflexivity|]; cbn; auto 10|].
    destruct (processable p (body request));
      eexists _, _; (split; [reflexivity|]); cbn; auto 10.
  - unfold uberWebhook, uber_processWebhook, try_catch, bind, property, interpolate.
    repeat match goal with
           | |- context [if ?c then _ else _] => destruct c; cbn
           end; eexists _, _; (split; [reflexivity|]); cbn; auto 10.
Qed.

End WebhookRouteFacts.

(** The sample event, signed with the DoorDash secret. *)
Lemma signed_event_is_accepted_witness :
  webhookEndpoint offline SignedDoorDash "secret"
    (post delivered (Some "secret/{}")) hotel
  = (Ok (accepted {| p_eventId := JStr "evt-1"; p_processedAt := 1700000000000 |}),
     tick hotel).
Proof.
  apply (signed_event_is_accepted offline SignedDoorDash "secret"
           (post delivered (Some "secret/{}")) hotel "{}").
  - reflexivity.
  - reflexivity.
  - discriminate.
Defined.

(** A body that is no event at all, sent to Instacart without a header. *)
Lemma unsigned_event_is_accepted_witness :
  webhookEndpoint offline SignedInstacart "key" (post (JNum 7) None) hotel
  = (Ok (accepted {| p_eventId := JUndefined; p_processedAt := 1700000000000 |}),
     tick hotel).
Proof.
  apply (unsigned_event_is_accepted offline SignedInstacart "key"
           (post (JNum 7) None) hotel).
  reflexivity.
Defined.

(** An event whose id is an object with a property [toString] cannot be
    logged: it is answered 500 on every endpoint, signed or not, and so is
    a handled event whose reference is such an object. *)
Example unprintable_event_is_refused :
  let odd := JObj [("event_id", JObj [("toString", JNum 0)])] in
  let lost := JObj [("event_id", JStr "evt-2"); ("event_name", JStr "delivery.delivered");
                    ("external_delivery_id", JArr [JObj [("toString", JNull)]])] in
  fst (doorDashWebhook offline "secret" (post odd None) hotel)
    = Ok (refused 500 "Failed to process DoorDash webhook")
  /\ fst (doorDashWebhook offline "secret" (post odd (Some "secret/{}")) hotel)
     = Ok (refused 500 "Failed to process DoorDash webhook")
  /\ fst (instacartWebhook offline "key" (post odd None) hotel)
     = Ok (refused 500 "Failed to process Instacart webhook")
  /\ fst (uberWebhook offline (post odd None) hotel)
     = Ok (refused 500 "Failed to process Uber webhook")
  /\ fst (doorDashWebhook offline "secret" (post lost None) hotel)
     = Ok (refused 500 "Failed to process DoorDash webhook")
  /\ fst (instacartWebhook offline "key" (post lost None) hotel)
     = Ok (accepted {| p_eventId := JStr "evt-2"; p_processedAt := 1700000000000 |}).
Proof. vm_compute. repeat split; reflexivity. Qed.

(* ===================================================================== *)
(** * Further properties of the order service *)
(* ===================================================================== *)

Section CatalogFacts.

Context (env : Env).

(** The state after a catalogue resolution, and the catalogue resolved. *)
Lemma afterCatalog_cases propertyId w :
  match catalogCache w !! propertyId with
  | Some catalog =>
      resolvedCatalog env propertyId w = catalog
      /\ afterCatalog env propertyId w = w
  | None =>
      afterCatalog env propertyId w
      = set_catalogCache (Nat.iter 9 tick w)
          (<[propertyId := resolvedCatalog env propertyId w]> (catalogCache w))
      /\ length (resolvedCatalog env propertyId w) = 9%nat
      /\ Forall (fun item => available item = true)
           (resolvedCatalog env propertyId w)
  end.
Proof.
  unfold resolvedCatalog, afterCatalog, getUpsellCatalog, bind, getCachedCatalog.
  destruct (catalogCache w !! propertyId); [split; reflexivity|].
  split; [reflexivity|]. split; [reflexivity|]. repeat constructor.
Qed.

(** X11: once resolved, the catalogue of a property is in the cache and
    every later resolution returns that same catalogue without building a
    new one (no new ids are drawn); the catalogues cached for other
    properties and the orders are not touched. *)
Theorem catalog_is_resolved_once propertyId other w :
  other <> propertyId ->
  let catalog := resolvedCatalog env propertyId w in
  let w1 := afterCatalog env propertyId w in
  catalogCache w1 !! propertyId = Some catalog
  /\ getUpsellCatalog env propertyId w1 = (Ok catalog, w1)
  /\ catalogCache w1 !! other = catalogCache w !! other
  /\ orderCache w1 = orderCache w.
Proof.
  intros Hne catalog w1.
  assert (Hcached : catalogCache w1 !! propertyId = Some catalog
                    /\ catalogCache w1 !! other = catalogCache w !! other
                    /\ orderCache w1 = orderCache w).
  { pose proof (afterCatalog_cases propertyId w) as H.
    destruct (catalogCache w !! propertyId) as [c|] eqn:Hc.
    - destruct H as [Hr Hw]. unfold w1, catalog. rewrite Hw, Hr. auto.
    - destruct H as [Hw _]. unfold w1, catalog. rewrite Hw.
      cbn [catalogCache set_catalogCache orderCache].
      rewrite lookup_insert_eq, lookup_insert_ne by congruence.
      split; [reflexivity|]. split; [reflexivity|].
      clear. generalize 9%nat. induction n; cbn; auto. }
  destruct Hcached as (H1 & H2 & H3).
  split; [exact H1|]. split; [|split; assumption].
  unfold getUpsellCatalog, bind, getCachedCatalog. rewrite H1. reflexivity.
Qed.

End CatalogFacts.

(** A first resolution for a property that has no catalogue yet, next to
    the cached catalogue of another property. *)
Lemma catalog_is_resolved_once_witness :
  let catalog := resolvedCatalog offline "property-9" hotel in
  let w1 := afterCatalog offline "property-9" hotel in
  catalogCache w1 !! "property-9" = Some catalog
  /\ getUpsellCatalog offline "property-9" w1 = (Ok catalog, w1)
  /\ catalogCache w1 !! "property-123" = catalogCache hotel !! "property-123"
  /\ orderCache w1 = orderCache hotel.
Proof.
  apply (catalog_is_resolved_once offline "property-9" "property-123" hotel).
  discriminate.
Defined.

Section MoreOrderFacts.

Context (env : Env).

(** X12: an update of one order leaves every other cached order, the
    catalogues, the tokens and the outbound calls as they were. *)
Theorem updateOrderStatus_touches_one_order orderId new eo ep w order j :
  orderCache w !! orderId = Some order ->
  j <> id order ->
  let w' := snd (updateOrderStatus env orderId new eo ep w) in
  orderCache w' !! j = orderCache w !! j
  /\ catalogCache w' = catalogCache w
  /\ tokenCache w' = tokenCache w
  /\ outbound w' = outbound w.
Proof.
  intros Hl Hj w'. unfold w'.
  destruct (updateOrderStatus_stored env orderId new eo ep w order Hl)
    as (Hs & Hc & Ht & Ho).
  rewrite Hs, lookup_insert_ne by congruence. auto.
Qed.

(** X13: there is no guard on transitions.  An order that was completed
    can be moved to any other status: the update succeeds, the stored
    status is the new one, and [completedAt] still holds the time of the
    completion. *)
Theorem completed_order_can_regress order stored new eo ep w :
  orderCache w !! id order = Some stored ->
  id stored = id order ->
  new <> COMPLETED ->
  let w1 := snd (updateOrderStatus env (id order) COMPLETED None None w) in
  exists updated w2,
    updateOrderStatus env (id order) new eo ep w1 = (Ok updated, w2)
    /\ orderCache w2 !! id order = Some updated
    /\ status updated = new
    /\ completedAt updated = Some (clock env (S (ticks w))).
Proof.
  intros Hl Hid Hnew w1.
  destruct (updateOrderStatus_stored env (id order) COMPLETED None None w stored Hl)
    as (Hs & _).
  fold w1 in Hs. cbn [stamp] in Hs.
  set (done := set_completedAt _ _) in Hs.
  assert (Hl0 : orderCache w1 !! id order = Some done).
  { rewrite Hs, Hid. apply lookup_insert_eq. }
  destruct (updateOrderStatus_stored env (id order) new eo ep w1 done Hl0)
    as (Hs2 & _).
  rewrite (updateOrderStatus_found env _ new eo ep _ _ Hl0) in *. cbn [snd] in Hs2.
  eexists _, _. split; [reflexivity|].
  split.
  { rewrite Hs2.
    replace (id done) with (id order) by (symmetry; exact Hid).
    apply lookup_insert_eq. }
  rewrite stamp_status. split; [reflexivity|].
  assert (Ht : ticks w1 = S (S (ticks w))).
  { unfold w1. rewrite (updateOrderStatus_found env _ COMPLETED None None _ _ Hl).
    reflexivity. }
  destruct new; try contradiction; reflexivity.
Qed.

Lemma elsewhere_refl order w : elsewhere order w w.
Proof. repeat split. Qed.

Lemma elsewhere_trans order w1 w2 w3 :
  elsewhere order w1 w2 -> elsewhere order w2 w3 -> elsewhere order w1 w3.
Proof.
  intros (A1 & B1 & C1) (A2 & B2 & C2). repeat split; try congruence.
  intros j Hj. rewrite A2, A1; auto.
Qed.

Lemma elsewhere_ext order w w' :
  orderCache w' = orderCache w -> catalogCache w' = catalogCache w ->
  tokenCache w' = tokenCache w -> elsewhere order w w'.
Proof. intros H1 H2 H3. split; [|auto]. intros j _. rewrite H1. reflexivity. Qed.

Lemma updateOrderStatus_elsewhere order new eo ep w :
  cached_as order w ->
  elsewhere order w (snd (updateOrderStatus env (id order) new eo ep w)).
Proof.
  intros (stored & Hl & Hs).
  destruct (updateOrderStatus_stored env (id order) new eo ep w stored Hl)
    as (Hst & Hc & Ht & _).
  assert (Hid : id stored = id order) by apply Hs.
  split; [|split; assumption].
  intros j Hj. rewrite Hst, Hid.
  rewrite lookup_insert_ne by congruence. reflexivity.
Qed.

(** An integration changes nothing but, possibly, the record of its
    order. *)
Lemma confirm_elsewhere order reference provider w0 w :
  elsewhere order w0 w ->
  cached_as order w ->
  elsewhere order w0
    (snd ((updateOrderStatus env (id order) CONFIRMED (Some reference) (Some provider) ;;;
           ret tt) w)).
Proof.
  intros He Hc.
  pose proof (updateOrderStatus_elsewhere order CONFIRMED (Some reference)
                (Some provider) w Hc) as Hu.
  destruct (updateOrderStatus_cached env order CONFIRMED (Some reference)
              (Some provider) w Hc) as (u & w' & Hrun & _).
  unfold bind. rewrite Hrun in *. cbn in *. eapply elsewhere_trans; eassumption.
Qed.

Lemma integration_elsewhere provider order item catalogItem w :
  cached_as order w ->
  elsewhere order w (snd (fst (integration env provider order item catalogItem) w)).
Proof.
  intros Hc. unfold integration.
  destruct (is_string "uber" provider); cbn [fst].
  { unfold processUberRideRequest.
    destruct (_ || _); [apply elsewhere_refl|].
    unfold try_catch. unfold bind at 1. unfold remote at 1.
    destruct (requestRide env (ticks w) _ _) as [reference|m];
      [|apply elsewhere_ext; reflexivity].
    pose proof (confirm_elsewhere order reference "uber" w
                  (called UberRequestRide w)
                  (elsewhere_ext order _ _ eq_refl eq_refl eq_refl)
                  (cached_as_ext order w _ eq_refl Hc)) as H.
    destruct ((updateOrderStatus env (id order) CONFIRMED (Some reference)
                 (Some "uber") ;;; ret tt) (called UberRequestRide w)) as [[|] w'];
      exact H. }
  destruct (is_string "doordash" provider); cbn [fst].
  { unfold processDoorDashDelivery.
    destruct (_ || _); [apply elsewhere_refl|].
    unfold try_catch. unfold bind at 1. unfold remote at 1.
    destruct (getDeliveryQuote env (ticks w) _) as [quote|m];
      [|apply elsewhere_ext; reflexivity].
    unfold bind at 1. unfold remote at 1.
    destruct (createDelivery env _ _) as [reference|m];
      [|apply elsewhere_ext; reflexivity].
    pose proof (confirm_elsewhere order reference "doordash" w
                  (called DoorDashCreateDelivery (called DoorDashGetDeliveryQuote w))
                  (elsewhere_ext order _ _ eq_refl eq_refl eq_refl)
                  (cached_as_ext order w _ eq_refl Hc)) as H.
    destruct ((updateOrderStatus env (id order) CONFIRMED (Some reference)
                 (Some "doordash") ;;; ret tt) _) as [[|] w']; exact H. }
  destruct (is_string "instacart" provider); cbn [fst].
  { unfold processInstacartOrder.
    destruct (_ || _); [apply elsewhere_refl|].
    unfold try_catch. unfold bind at 1. unfold remote at 1.
    destruct (getOrderEstimate env (ticks w) _) as [estimate|m];
      [|apply elsewhere_ext; reflexivity].
    unfold bind at 1. unfold remote at 1.
    destruct (createOrder env _ _) as [reference|m];
      [|apply elsewhere_ext; reflexivity].
    pose proof (confirm_elsewhere order reference "instacart" w
                  (called InstacartCreateOrder (called InstacartGetOrderEstimate w))
                  (elsewhere_ext order _ _ eq_refl eq_refl eq_refl)
                  (cached_as_ext order w _ eq_refl Hc)) as H.
    destruct ((updateOrderStatus env (id order) CONFIRMED (Some reference)
                 (Some "instacart") ;;; ret tt) _) as [[|] w']; exact H. }
  apply elsewhere_refl.
Qed.

Lemma processItem_elsewhere order catalog item w :
  cached_as order w ->
  elsewhere order w (snd (processItem env order catalog item w)).
Proof.
  intros Hc. unfold processItem.
  destruct (findItem catalog (upsellId item)) as [catalogItem|]; [|apply elsewhere_refl].
  destruct (truthy (field "provider" (item_metadata catalogItem))); cbn [negb];
    [|apply elsewhere_refl].
  pose proof (integration_settles env (field "provider" (item_metadata catalogItem))
                order item catalogItem w Hc) as Hs.
  pose proof (integration_elsewhere (field "provider" (item_metadata catalogItem))
                order item catalogItem w Hc) as He.
  destruct (integration env _ order item catalogItem) as [call provider].
  unfold settles in Hs. cbn [fst] in Hs, He. unfold try_catch.
  destruct (call w) as [[[]|m] w1]; [exact He|].
  cbn [snd] in He. apply (cached_as_ext order w w1 Hs) in Hc.
  pose proof (updateOrderStatus_elsewhere order PENDING None provider w1 Hc) as Hu.
  destruct (updateOrderStatus_cached env order PENDING None provider w1 Hc)
    as (u & w2 & Hrun & _).
  unfold bind. rewrite Hrun in *. cbn in *. eapply elsewhere_trans; eassumption.
Qed.

Lemma forEachItem_elsewhere order catalog rest : forall w,
  cached_as order w ->
  elsewhere order w (snd (forEachItem env order catalog rest w)).
Proof.
  induction rest as [|item rest IH]; intros w Hc; cbn [forEachItem];
    [apply elsewhere_refl|].
  pose proof (processItem_elsewhere order catalog item w Hc) as He.
  destruct (processItem_returns env order catalog item w Hc) as (w1 & Hrun & Hc1).
  unfold bind. rewrite Hrun in *. cbn [snd] in He.
  eapply elsewhere_trans; [exact He|]. apply IH, Hc1.
Qed.

(** X14: [createUpsellOrder] writes one order record, under the id drawn
    for the new order: whether the request is accepted or rejected, and
    whatever the providers do, every other cached order and every cached
    token is what it was. *)
Theorem createUpsellOrder_touches_one_order dto guestId propertyId w j :
  j <> uuidv4 env (ticks (afterCatalog env propertyId w)) ->
  let w' := snd (createUpsellOrder env dto guestId propertyId w) in
  orderCache w' !! j = orderCache w !! j
  /\ tokenCache w' = tokenCache w.
Proof.
  intros Hj w'. unfold w'. rewrite createUpsellOrder_run. cbn zeta.
  assert (Ht : tokenCache (afterCatalog env propertyId w) = tokenCache w).
  { unfold afterCatalog, getUpsellCatalog, bind, getCachedCatalog.
    destruct (catalogCache w !! propertyId); reflexivity. }
  destruct (mapItems _ (dto_items dto) _) as [[orderItems total]|e].
  2: { cbn [snd]. rewrite afterCatalog_orders. auto. }
  set (order := newOrder env dto guestId propertyId orderItems total _).
  set (w1 := set_orderKeys _ _).
  assert (Hc : cached_as (JSON_roundtrip order) w1).
  { apply pending_is_cached,
      (written_is_pending (afterCatalog env propertyId w)); reflexivity. }
  assert (Hw : orderCache w1 !! j = orderCache w !! j).
  { rewrite (orderCache_insert w1 (afterCatalog env propertyId w) (id order) order)
      by reflexivity.
    rewrite lookup_insert_ne by (cbn; congruence).
    rewrite afterCatalog_orders. reflexivity. }
  unfold processExternalIntegrations.
  rewrite (forEachItem_id env order (JSON_roundtrip order)) by reflexivity.
  pose proof (forEachItem_elsewhere (JSON_roundtrip order)
                (resolvedCatalog env propertyId w)
                (items order) w1 Hc) as (He & _ & Hk).
  destruct (forEachItem env (JSON_roundtrip order) _ (items order) w1)
    as [[u|e] w2]; cbn [snd] in *.
  all: rewrite (He j Hj), Hk, Hw; auto.
Qed.

End MoreOrderFacts.

Section DispatchOutcomes.

Context (env : Env).

Lemma processItem_plain order catalog item w :
  plain catalog (upsellId item) ->
  processItem env order catalog item w = (Ok tt, w).
Proof.
  unfold plain, processItem.
  destruct (findItem catalog (upsellId item)) as [catalogItem|]; [|reflexivity].
  intros ->. reflexivity.
Qed.

Lemma forEachItem_plain order catalog rest w :
  Forall (fun item => plain catalog (upsellId item)) rest ->
  forEachItem env order catalog rest w = (Ok tt, w).
Proof.
  induction 1 as [|item rest Hitem _ IH]; cbn [forEachItem]; [reflexivity|].
  unfold bind. rewrite (processItem_plain _ _ _ _ Hitem). exact IH.
Qed.

Lemma priced_plain catalog lines : forall orderItems,
  Forall2 (priced catalog) lines orderItems ->
  Forall (fun item => plain catalog (dto_upsellId item)) lines ->
  Forall (fun item => plain catalog (upsellId item)) orderItems.
Proof.
  induction 1 as [|item line lines orderItems Hp _ IH]; intros Hall; [constructor|].
  inversion Hall; subst. constructor; [|auto].
  destruct Hp as (-> & _). assumption.
Qed.

(** X15: a request whose lines all pass the catalogue check and are bound
    to no provider (the empty request included) is accepted without any
    provider call.  The order returned is PENDING with the catalogue
    total, and the record the cache holds under its id is that order as it
    is read back from its JSON text: the same but for the numbers and the
    metadata, which are the ones JSON keeps. *)
Theorem plain_order_calls_no_provider dto guestId propertyId w :
  let catalog := resolvedCatalog env propertyId w in
  Forall (purchasable catalog) (dto_items dto) ->
  Forall (fun item => plain catalog (dto_upsellId item)) (dto_items dto) ->
  exists order w',
    createUpsellOrder env dto guestId propertyId w = (Ok order, w')
    /\ outbound w' = outbound w
    /\ orderCache w' !! id order = Some (JSON_roundtrip order)
    /\ status order = PENDING
    /\ totalAmount order = Num (catalogTotal catalog (dto_items dto)).
Proof.
  intros catalog Hok Hplain.
  destruct (mapItems_purchasable catalog _ 0%float Hok) as (orderItems & total & Hm).
  destruct (mapItems_priced catalog _ _ _ _ Hm) as (Htotal & Hlines & _).
  rewrite createUpsellOrder_run. cbn zeta. fold catalog. rewrite Hm.
  unfold processExternalIntegrations.
  rewrite forEachItem_plain
    by (cbn [items newOrder]; eapply priced_plain; eassumption).
  eexists _, _. split; [reflexivity|].
  split.
  { cbn [outbound set_orderKeys tick].
    unfold afterCatalog, getUpsellCatalog, bind, getCachedCatalog.
    destruct (catalogCache w !! propertyId); reflexivity. }
  split.
  { erewrite orderCache_insert by reflexivity. apply lookup_insert_eq. }
  split; [reflexivity|]. cbn [totalAmount newOrder]. rewrite Htotal. reflexivity.
Qed.

(** X16: a line for an item bound to Uber, DoorDash or Instacart whose
    metadata lacks one of the properties that integration requires (the
    metadata is missing, is not an object, or has the property absent or
    falsy, whatever else it holds) never reaches the provider: no outbound
    call is made, and the order is written back PENDING, without external
    reference, under the provider's name. *)
Theorem missing_metadata_calls_no_provider order catalog item catalogItem name w k :
  cached_as order w ->
  findItem catalog (upsellId item) = Some catalogItem ->
  field "provider" (item_metadata catalogItem) = JStr name ->
  In name ["uber"; "doordash"; "instacart"] ->
  In k (requiredMetadata name) ->
  truthy (field k (metadata item)) = false ->
  exists updated w',
    processItem env order catalog item w = (Ok tt, w')
    /\ outbound w' = outbound w
    /\ orderCache w' !! id order = Some updated
    /\ status updated = PENDING
    /\ externalOrderId updated = None
    /\ externalProvider updated = Some name.
Proof.
  intros Hc Hf Hprov Hin Hk Hmeta.
  assert (Hcall : exists call m,
             integration env (JStr name) order item catalogItem = (call, Some name)
             /\ call w = (Throw m, w)).
  { unfold integration.
    destruct Hin as [<-|[<-|[<-|[]]]]; cbn [is_string];
      repeat match goal with
             | |- context [String.eqb ?a ?b] =>
                 let v := eval vm_compute in (String.eqb a b) in
                 change (String.eqb a b) with v
             end; cbn iota.
    all: eexists _, _; split; [reflexivity|].
    all: unfold processUberRideRequest, processDoorDashDelivery,
           processInstacartOrder, missing.
    all: vm_compute in Hk.
    all: repeat (destruct Hk as [<-|Hk]; [rewrite Hmeta; cbn [negb orb];
                   rewrite ?orb_true_r; reflexivity|]).
    all: destruct Hk. }
  destruct Hcall as (call & m & Hint & Hthrow).
  assert (Htruthy : truthy (JStr name) = true).
  { destruct Hin as [<-|[<-|[<-|[]]]]; reflexivity. }
  unfold processItem. rewrite Hf, Hprov, Htruthy. cbn [negb]. rewrite Hint.
  unfold try_catch. rewrite Hthrow.
  destruct (updateOrderStatus_cached env order PENDING None (Some name) w Hc)
    as (u & w2 & Hrun & Hl & _ & Hst & Heo & Hep).
  assert (Hout : outbound w2 = outbound w).
  { destruct Hc as (stored & Hls & _).
    destruct (updateOrderStatus_stored env (id order) PENDING None (Some name) w
                stored Hls) as (_ & _ & _ & Ho).
    rewrite Hrun in Ho. exact Ho. }
  unfold bind. rewrite Hrun. cbn. exists u, w2. auto 10.
Qed.

(** X17: a ride line with a user token and a product id, when Uber accepts
    the request, confirms the order: exactly one provider call is made and
    the cached record becomes CONFIRMED with the ride's [request_id] as
    external reference and "uber" as provider. *)
Theorem accepted_ride_confirms_the_order order catalog item catalogItem reference w :
  cached_as order w ->
  findItem catalog (upsellId item) = Some catalogItem ->
  field "provider" (item_metadata catalogItem) = JStr "uber" ->
  truthy (field "userToken" (metadata item)) = true ->
  truthy (field "productId" (metadata item)) = true ->
  (forall userToken request, requestRide env (ticks w) userToken request = Ok reference) ->
  exists updated w',
    processItem env order catalog item w = (Ok tt, w')
    /\ outbound w' = (outbound w ++ [UberRequestRide])%list
    /\ orderCache w' !! id order = Some updated
    /\ status updated = CONFIRMED
    /\ externalOrderId updated = Some reference
    /\ externalProvider updated = Some "uber"
    /\ same_purchase updated order.
Proof.
  intros Hc Hf Hprov Htoken Hproduct Hride.
  unfold processItem. rewrite Hf, Hprov. cbn [truthy negb String.eqb].
  change (negb (negb (String.eqb "uber" ""))) with true. cbn iota.
  unfold integration. cbn [is_string].
  change (String.eqb "uber" "uber") with true. cbn iota.
  unfold try_catch at 1, processUberRideRequest, missing.
  rewrite Htoken, Hproduct. cbn [negb orb].
  unfold try_catch. unfold bind at 1. unfold remote at 1. rewrite Hride.
  apply (cached_as_ext order w (called UberRequestRide w) eq_refl) in Hc.
  destruct (updateOrderStatus_cached env order CONFIRMED (Some reference)
              (Some "uber") _ Hc)
    as (u & w2 & Hrun & Hl & Hsame & Hst & Heo & Hep).
  assert (Hout : outbound w2 = (outbound w ++ [UberRequestRide])%list).
  { destruct Hc as (stored & Hls & _).
    destruct (updateOrderStatus_stored env (id order) CONFIRMED (Some reference)
                (Some "uber") _ stored Hls) as (_ & _ & _ & Ho).
    rewrite Hrun in Ho. exact Ho. }
  unfold bind. rewrite Hrun. cbn. exists u, w2. auto 10.
Qed.

End DispatchOutcomes.

(** Completing the cached order "o-1", seen from another id. *)
Lemma updateOrderStatus_touches_one_order_witness :
  let w' := snd (updateOrderStatus offline "o-1" COMPLETED None None confirmed) in
  orderCache w' !! "o-2" = orderCache confirmed !! "o-2"
  /\ catalogCache w' = catalogCache confirmed
  /\ tokenCache w' = tokenCache confirmed
  /\ outbound w' = outbound confirmed.
Proof.
  apply (updateOrderStatus_touches_one_order offline "o-1" COMPLETED None None
           confirmed anOrder "o-2").
  - reflexivity.
  - discriminate.
Defined.

(** The cached order "o-1" is completed, then set back to PENDING. *)
Lemma completed_order_can_regress_witness :
  let w1 := snd (updateOrderStatus offline "o-1" COMPLETED None None confirmed) in
  exists updated w2,
    updateOrderStatus offline "o-1" PENDING None None w1 = (Ok updated, w2)
    /\ orderCache w2 !! "o-1" = Some updated
    /\ status updated = PENDING
    /\ completedAt updated = Some 1700000000001.
Proof.
  apply (completed_order_can_regress offline anOrder anOrder PENDING None None
           confirmed).
  - reflexivity.
  - reflexivity.
  - discriminate.
Defined.

(** A ride and a food delivery ordered next to the cached order "o-1". *)
Lemma createUpsellOrder_touches_one_order_witness :
  let w' := snd (createUpsellOrder uberOnly rideAndFood "guest-1" "property-123"
                   confirmed) in
  orderCache w' !! "o-1" = orderCache confirmed !! "o-1"
  /\ tokenCache w' = tokenCache confirmed.
Proof.
  apply (createUpsellOrder_touches_one_order uberOnly rideAndFood "guest-1"
           "property-123" confirmed "o-1").
  vm_compute. discriminate.
Defined.

(** One early check-in: an item bound to no provider. *)
Lemma plain_order_calls_no_provider_witness :
  exists order w',
    createUpsellOrder uberOnly earlyCheckin "guest-1" "property-123" hotel
    = (Ok order, w')
    /\ outbound w' = outbound hotel
    /\ orderCache w' !! id order = Some (JSON_roundtrip order)
    /\ status order = PENDING
    /\ totalAmount order
       = Num (catalogTotal (resolvedCatalog uberOnly "property-123" hotel)
                (dto_items earlyCheckin)).
Proof.
  apply (plain_order_calls_no_provider uberOnly earlyCheckin "guest-1"
           "property-123" hotel).
  - repeat constructor. eexists. split; vm_compute; reflexivity.
  - repeat constructor.
Defined.

(** A ride line sent with a user token and a note but no product id,
    while Uber is reachable. *)
Lemma missing_metadata_calls_no_provider_witness :
  exists updated w',
    processItem uberOnly anOrder sampleCatalog (rideLine tokenOnly) confirmed
    = (Ok tt, w')
    /\ outbound w' = outbound confirmed
    /\ orderCache w' !! id anOrder = Some updated
    /\ status updated = PENDING
    /\ externalOrderId updated = None
    /\ externalProvider updated = Some "uber".
Proof.
  apply (missing_metadata_calls_no_provider uberOnly anOrder sampleCatalog
           (rideLine tokenOnly)
           (product "ride" "Uber Ride" 0 true (JObj [("provider", JStr "uber")]))
           "uber" confirmed "productId").
  - exists anOrder. split; [reflexivity|apply same_purchase_refl].
  - reflexivity.
  - reflexivity.
  - cbn. auto.
  - cbn. auto.
  - reflexivity.
Defined.

(** A ride line with its metadata, while Uber is reachable. *)
Lemma accepted_ride_confirms_the_order_witness :
  exists updated w',
    processItem uberOnly anOrder sampleCatalog (rideLine rideDetails) confirmed
    = (Ok tt, w')
    /\ outbound w' = (outbound confirmed ++ [UberRequestRide])%list
    /\ orderCache w' !! id anOrder = Some updated
    /\ status updated = CONFIRMED
    /\ externalOrderId updated = Some "ride-1"
    /\ externalProvider updated = Some "uber"
    /\ same_purchase updated anOrder.
Proof.
  apply (accepted_ride_confirms_the_order uberOnly anOrder sampleCatalog
           (rideLine rideDetails)
           (product "ride" "Uber Ride" 0 true (JObj [("provider", JStr "uber")]))
           "ride-1" confirmed).
  - exists anOrder. split; [reflexivity|apply same_purchase_refl].
  - reflexivity.
  - reflexivity.
  - reflexivity.
  - reflexivity.
  - intros userToken request. reflexivity.
Defined.

(* ===================================================================== *)
(** * Properties of the order controller *)
(* ===================================================================== *)

Section ControllerFacts.

Context (env : Env).

Lemma createOrder_accepted body userId w :
  Forall (purchasable (resolvedCatalog env "property-123" w)) (dto_items body) ->
  exists order w',
    createUpsellOrder env body userId "property-123" w = (Ok order, w')
    /\ status order = PENDING /\ guestId order = userId
    /\ propertyId order = "property-123"
    /\ cached_as (JSON_roundtrip order) w'.
Proof.
  intros Hall.
  destruct (mapItems_purchasable (resolvedCatalog env "property-123" w) _ 0%float Hall)
    as (orderItems & total & Hm).
  rewrite createUpsellOrder_run. cbn zeta. rewrite Hm.
  set (order := newOrder env body userId "property-123" orderItems total _).
  set (w1 := set_orderKeys _ _).
  assert (Hc : cached_as (JSON_roundtrip order) w1).
  { apply pending_is_cached,
      (written_is_pending (afterCatalog env "property-123" w)); reflexivity. }
  unfold processExternalIntegrations.
  rewrite (forEachItem_id env order (JSON_roundtrip order)) by reflexivity.
  destruct (forEachItem_returns env (JSON_roundtrip order)
              (resolvedCatalog env "property-123" w)
              (items order) w1 Hc) as (w2 & Hrun & Hc2).
  rewrite Hrun.
  exists order, w2. repeat split; auto.
Qed.

(** X18: the order endpoint always answers, and against the catalogue of
    the placeholder property "property-123": 201 with the PENDING order of
    the authenticated user when every requested line passes the catalogue
    check, the cache then holding under the order's id a record of the
    same purchase as the order read back from its JSON text; and otherwise
    500 (not a 4xx) with "Failed to create upsell order", leaving the
    order cache as it was. *)
Theorem createOrder_replies body userId w :
  let catalog := resolvedCatalog env "property-123" w in
  exists reply w',
    UpsellController.createOrder env body userId w = (Ok reply, w')
    /\ ((Forall (purchasable catalog) (dto_items body)
         /\ http_code reply = 201
         /\ exists order,
              http_data reply = Some order /\ status order = PENDING
              /\ guestId order = userId /\ propertyId order = "property-123"
              /\ cached_as (JSON_roundtrip order) w')
        \/ (Exists (fun item => ~ purchasable catalog item) (dto_items body)
            /\ http_code reply = 500
            /\ http_error reply = Some "Failed to create upsell order"
            /\ http_data reply = None
            /\ orderCache w' = orderCache w)).
Proof.
  intros catalog. unfold UpsellController.createOrder, try_catch. unfold bind at 1.
  destruct (Forall_Exists_dec (purchasable catalog)
              (fun item => ~ purchasable catalog item)
              (purchasable_dec catalog) (dto_items body)) as [Hall|Hex].
  - destruct (createOrder_accepted body userId w Hall)
      as (order & w' & Hrun & Hst & Hg & Hp & Hc).
    rewrite Hrun. eexists _, _. split; [reflexivity|]. left.
    split; [exact Hall|]. split; [reflexivity|]. exists order. auto.
  - destruct (first_offence catalog _ Hex)
      as (before & bad & after & Hsplit & Hall & Hbad).
    rewrite createUpsellOrder_run. cbn zeta. fold catalog.
    rewrite Hsplit, (mapItems_first_offence catalog before bad after 0 Hall Hbad).
    eexists _, _. split; [reflexivity|]. right.
    split; [rewrite <- Hsplit; exact Hex|].
    repeat split. apply afterCatalog_orders.
Qed.

(** X19: an order created through the endpoint can be fetched by its id:
    the GET answers 200 with the cached record, which is of the same
    purchase as the created order read back from its JSON text.  (It need
    not have the numbers of the order the POST returned: a total of
    [Infinity] is fetched as [null].) *)
Theorem created_order_can_be_fetched body userId w :
  Forall (purchasable (resolvedCatalog env "property-123" w)) (dto_items body) ->
  exists order stored w',
    UpsellController.createOrder env body userId w = (Ok (sent 201 order), w')
    /\ UpsellController.getOrderById (id order) w' = (Ok (sent 200 stored), w')
    /\ same_purchase stored (JSON_roundtrip order).
Proof.
  intros Hall.
  destruct (createOrder_accepted body userId w Hall)
    as (order & w' & Hrun & _ & _ & _ & (stored & Hl & Hs)).
  exists order, stored, w'.
  split.
  { unfold UpsellController.createOrder, try_catch. unfold bind at 1.
    rewrite Hrun. reflexivity. }
  split; [|exact Hs].
  unfold UpsellController.getOrderById, try_catch, bind, getOrderById.
  rewrite getCachedOrder_run. cbn [id JSON_roundtrip] in Hl.
  rewrite Hl. reflexivity.
Qed.

End ControllerFacts.

(** A ride and a food delivery ordered, then fetched, with Uber
    reachable. *)
Lemma created_order_can_be_fetched_witness :
  exists order stored w',
    UpsellController.createOrder uberOnly rideAndFood "guest-1" hotel
    = (Ok (sent 201 order), w')
    /\ UpsellController.getOrderById (id order) w' = (Ok (sent 200 stored), w')
    /\ same_purchase stored (JSON_roundtrip order).
Proof.
  apply (created_order_can_be_fetched uberOnly rideAndFood "guest-1" hotel).
  repeat constructor; eexists; split; vm_compute; reflexivity.
Defined.

(* ===================================================================== *)
(** * Properties of the Uber client's calls *)
(* ===================================================================== *)

Module UberClientFacts.
Import Axios.

Section Facts.

Context (message_of : AxiosError -> string) (data_of : AxiosError -> jsval)
        (baseUrl : string).

(** X20: a 404 on [/requests/current] is not an error: [getCurrentRide]
    resolves [null] after a single request, whereas [requestRide] raises an
    [UberAPIError] with status 404 on the same answer. *)
Theorem no_current_ride_is_null error rest :
  response_status error = Some 404 ->
  code_is "ECONNABORTED" error = false ->
  code_is "ETIMEDOUT" error = false ->
  UberClient.getCurrentRide message_of data_of baseUrl (Rejected error :: rest)
    = Some (UberClient.Returned None, 1%nat)
  /\ exists raised,
       UberClient.requestRide message_of data_of baseUrl (Rejected error :: rest)
         = Some (UberClient.Raised raised, 1%nat)
       /\ UberClient.statusCode raised = 404.
Proof.
  intros Hs Ha Ht.
  assert (Hr : retryable error = false).
  { unfold retryable. rewrite Ha, Ht, Hs. reflexivity. }
  unfold UberClient.getCurrentRide, UberClient.requestRide. cbn [axiosInstance].
  rewrite !(RetryFacts.not_retryable_surfaces _ _ _ _ Hr). cbn. rewrite Hs. cbn.
  split; [reflexivity|]. eexists. split; reflexivity.
Qed.



(** X22: a ride request that times out, is retried and fails again without
    a response is reported after two requests as an [UberAPIError] with
    status 500 and the advice for an unavailable service; the status 0 /
    'NETWORK_ERROR' branch of [handleError] is not the one taken. *)
Theorem timeouts_are_reported_as_500 first second rest :
  retryable first = true ->
  response_status second = None ->
  exists raised,
    UberClient.requestRide message_of data_of baseUrl
      (Rejected first :: Rejected second :: rest)
      = Some (UberClient.Raised raised, 2%nat)
    /\ UberClient.statusCode raised = 500
    /\ UberClient.suggestion raised
       = "Uber service temporarily unavailable. Retry with exponential backoff."
    /\ UberClient.operation raised = "requestRide".
Proof.
  intros Hr Hs. unfold UberClient.requestRide. cbn [axiosInstance].
  unfold onRejected at 1. cbn [not_retry request _retry andb]. rewrite Hr.
  change (next_retry (request (baseUrl ++ "/requests")) <=? 3)%Z with true.
  cbn iota zeta.
  unfold onRejected, not_retry. cbn [with_retry _retry next_retry request].
  change (0 + 1 =? 0)%Z with false. cbn [andb].
  cbn. eexists. split; [reflexivity|]. cbn. rewrite Hs. repeat split.
Qed.

End Facts.

(** A 404 answered to both calls. *)
Lemma no_current_ride_is_null_witness :
  UberClient.getCurrentRide (UberClient.says "Request failed with status code 404") UberClient.nothing
    "https://api.uber.com/v1.2" [Rejected (http_error 404)]
    = Some (UberClient.Returned None, 1%nat)
  /\ exists raised,
       UberClient.requestRide (UberClient.says "Request failed with status code 404") UberClient.nothing
         "https://api.uber.com/v1.2" [Rejected (http_error 404)]
         = Some (UberClient.Raised raised, 1%nat)
       /\ UberClient.statusCode raised = 404.
Proof.
  apply (no_current_ride_is_null (UberClient.says "Request failed with status code 404")
           UberClient.nothing "https://api.uber.com/v1.2" (http_error 404) []);
    reflexivity.
Defined.


(** Two timeouts in a row. *)
Lemma timeouts_are_reported_as_500_witness :
  exists raised,
    UberClient.requestRide (UberClient.says "timeout of 30000ms exceeded") UberClient.nothing
      "https://api.uber.com/v1.2" [Rejected timeout; Rejected timeout]
      = Some (UberClient.Raised raised, 2%nat)
    /\ UberClient.statusCode raised = 500
    /\ UberClient.suggestion raised
       = "Uber service temporarily unavailable. Retry with exponential backoff."
    /\ UberClient.operation raised = "requestRide".
Proof.
  apply (timeouts_are_reported_as_500 (UberClient.says "timeout of 30000ms exceeded") UberClient.nothing
           "https://api.uber.com/v1.2" timeout timeout []);
    reflexivity.
Defined.

End UberClientFacts.

(* ===================================================================== *)
(** * Properties of the service-request service *)
(* ===================================================================== *)

Module ServiceRequestFacts.
Import ServiceRequests.

Section Facts.

Context (env : Env) (sla : SlaConfig).

(** X23: a new service request is PENDING, can be read back under its id,
    has its SLA deadline at the creation time plus the minutes of its
    priority, and is overdue exactly at the times after that deadline; with
    a non-negative SLA it is not overdue when it is created. *)
Theorem new_request_has_its_deadline dto guestId propertyId d :
  0 <= getSLAMinutes sla (c_priority dto) ->
  let created := fst (createServiceRequest env sla dto guestId propertyId d) in
  let d' := snd (createServiceRequest env sla dto guestId propertyId d) in
  getServiceRequestById (id created) d' = Some created
  /\ status created = PENDING
  /\ slaDeadline created
     = createdAt created + getSLAMinutes sla (c_priority dto) * 60000
  /\ (forall now, isOverdue now created = (slaDeadline created <? now)%Z)
  /\ isOverdue (createdAt created) created = false.
Proof.
  intros Hsla created d'.
  split.
  { unfold getServiceRequestById, getCachedServiceRequest. apply lookup_insert_eq. }
  split; [reflexivity|]. split; [reflexivity|]. split; [reflexivity|].
  cbn. unfold addMinutes. apply Z.ltb_ge. lia.
Qed.

(** X24: closing a request (an update to COMPLETED or to CANCELLED) stamps
    [completedAt], respectively [cancelledAt], with the current time, and
    from then on the request is never overdue, whatever its deadline. *)
Theorem closed_request_is_never_overdue i dto d existing closing :
  getServiceRequestById i d = Some existing ->
  u_status dto = Some closing ->
  closing = COMPLETED \/ closing = CANCELLED ->
  exists updated d',
    updateServiceRequest env i dto d = (Ok updated, d')
    /\ getServiceRequestById (id existing) d' = Some updated
    /\ status updated = closing
    /\ (forall now, isOverdue now updated = false)
    /\ match closing with
       | COMPLETED => completedAt updated = Some (clock env (S (draws d)))
       | _ => cancelledAt updated = Some (clock env (S (draws d)))
       end.
Proof.
  intros Hl Hst Hclosing. unfold updateServiceRequest. rewrite Hl, Hst.
  destruct Hclosing as [-> | ->].
  all: eexists _, _; split; [reflexivity|].
  all: split;
    [unfold getServiceRequestById, getCachedServiceRequest; apply lookup_insert_eq|].
  all: cbn; rewrite Hst; repeat split.
  all: intros now; unfold isOverdue; cbn; rewrite Hst; reflexivity.
Qed.

(** X25: [assignServiceRequest] on an existing request sets the status to
    ASSIGNED and the assignee to the staff id, replaces the estimated
    completion time by its argument (erasing an earlier estimate when none
    is given), and stamps [assignedAt] only when the staff id is not empty;
    deadline, rating, creation and closing times are kept. *)
Theorem assignment_overwrites_the_estimate i staffId estimate d existing :
  getServiceRequestById i d = Some existing ->
  exists updated d',
    assignServiceRequest env i staffId estimate d = (Ok updated, d')
    /\ getServiceRequestById (id existing) d' = Some updated
    /\ status updated = ASSIGNED
    /\ assignedTo updated = Some staffId
    /\ estimatedCompletionTime updated = estimate
    /\ assignedAt updated
       = (if String.eqb staffId "" then assignedAt existing
          else Some (clock env (S (draws d))))
    /\ (slaDeadline updated, guestRating updated, createdAt updated,
        completedAt updated, cancelledAt updated, priority updated, id updated)
       = (slaDeadline existing, guestRating existing, createdAt existing,
          completedAt existing, cancelledAt existing, priority existing, id existing).
Proof.
  intros Hl. unfold assignServiceRequest, updateServiceRequest. rewrite Hl.
  cbn [u_status u_assignedTo nonempty].
  destruct (String.eqb staffId ""); cbn [negb].
  all: eexists _, _; split; [reflexivity|].
  all: split;
    [unfold getServiceRequestById, getCachedServiceRequest; apply lookup_insert_eq|].
  all: repeat split.
Qed.

(** X26: the status of the rating endpoint.  A request that does not exist
    or is not COMPLETED gives 400; a COMPLETED one with a rating below 1 or
    above 5 gives 500, not 400, because the error message matches neither
    'not found' nor 'completed'; otherwise the answer is 200 and the rating
    and feedback are stored, a body without rating included.  Nothing is
    stored unless the answer is 200. *)
Theorem rating_reply_codes i body d :
  let reply := fst (rateServiceRequest_controller env i body d) in
  let d' := snd (rateServiceRequest_controller env i body d) in
  match getServiceRequestById i d with
  | None => http_code reply = 400 /\ d' = d
  | Some existing =>
      match status existing with
      | COMPLETED =>
          if outOfRange (r_rating body)
          then http_code reply = 500 /\ d' = d
          else http_code reply = 200
               /\ exists stored,
                    http_data reply = Some stored
                    /\ getServiceRequestById (id existing) d' = Some stored
                    /\ guestRating stored = r_rating body
                    /\ guestFeedback stored = r_feedback body
                    /\ status stored = COMPLETED
      | _ => http_code reply = 400 /\ d' = d
      end
  end.
Proof.
  intros reply d'. unfold reply, d', rateServiceRequest_controller, rateServiceRequest.
  destruct (getServiceRequestById i d) as [existing|] eqn:Hl;
    [|split; reflexivity].
  destruct (status existing) eqn:Hst; try (split; reflexivity).
  destruct (outOfRange (r_rating body)); [split; reflexivity|].
  split; [reflexivity|]. eexists. split; [reflexivity|].
  split; [unfold getServiceRequestById, getCachedServiceRequest; apply lookup_insert_eq|].
  cbn. auto.
Qed.

(** X27: for an id that is not in the cache, the update endpoint answers
    404 and the rating endpoint 400, [assignServiceRequest] throws "Service
    request not found", and nothing is stored. *)
Theorem unknown_request_is_refused i update rating staffId estimate d :
  getServiceRequestById i d = None ->
  updateServiceRequest_controller env i update d
    = (failed 404 "Failed to update service request"
         (Some "Service request not found"), d)
  /\ rateServiceRequest_controller env i rating d
     = (failed 400 "Failed to rate service request"
          (Some "Service request not found"), d)
  /\ assignServiceRequest env i staffId estimate d
     = (Throw "Service request not found", d).
Proof.
  intros Hl.
  unfold updateServiceRequest_controller, rateServiceRequest_controller,
    assignServiceRequest, updateServiceRequest, rateServiceRequest.
  rewrite Hl. repeat split.
Qed.

End Facts.

(** An urgent request: fifteen minutes. *)
Lemma new_request_has_its_deadline_witness :
  getServiceRequestById (id theLeak) reported = Some theLeak
  /\ status theLeak = PENDING
  /\ slaDeadline theLeak = createdAt theLeak + 15 * 60000
  /\ (forall now, isOverdue now theLeak = (slaDeadline theLeak <? now)%Z)
  /\ isOverdue (createdAt theLeak) theLeak = false.
Proof.
  apply (new_request_has_its_deadline offline defaultSla leak "guest-1"
           "property-123" emptyDesk).
  cbn. lia.
Defined.

(** The leak is fixed. *)
Lemma closed_request_is_never_overdue_witness :
  exists updated d',
    updateServiceRequest offline "uuid-b" (setStatus COMPLETED) reported
    = (Ok updated, d')
    /\ getServiceRequestById "uuid-b" d' = Some updated
    /\ status updated = COMPLETED
    /\ (forall now, isOverdue now updated = false)
    /\ completedAt updated = Some 1700000000003.
Proof.
  apply (closed_request_is_never_overdue offline "uuid-b" (setStatus COMPLETED)
           reported theLeak COMPLETED).
  - reflexivity.
  - reflexivity.
  - left. reflexivity.
Defined.

(** The leak is assigned to a plumber, without an estimate. *)
Lemma assignment_overwrites_the_estimate_witness :
  exists updated d',
    assignServiceRequest offline "uuid-b" "plumber-7" None reported = (Ok updated, d')
    /\ status updated = ASSIGNED
    /\ assignedTo updated = Some "plumber-7"
    /\ estimatedCompletionTime updated = None
    /\ assignedAt updated = Some 1700000000003.
Proof.
  destruct (assignment_overwrites_the_estimate offline "uuid-b" "plumber-7" None
              reported theLeak eq_refl)
    as (updated & d' & Hrun & _ & Hst & Hto & Hest & Hat & _).
  exists updated, d'. auto.
Defined.

(** Nothing is known under the id "uuid-z". *)
Lemma unknown_request_is_refused_witness :
  updateServiceRequest_controller offline "uuid-z" (setStatus COMPLETED) reported
    = (failed 404 "Failed to update service request"
         (Some "Service request not found"), reported)
  /\ rateServiceRequest_controller offline "uuid-z"
       {| r_rating := Some 5%float; r_feedback := None |} reported
     = (failed 400 "Failed to rate service request"
          (Some "Service request not found"), reported)
  /\ assignServiceRequest offline "uuid-z" "plumber-7" None reported
     = (Throw "Service request not found", reported).
Proof.
  apply (unknown_request_is_refused offline "uuid-z" (setStatus COMPLETED)
           {| r_rating := Some 5%float; r_feedback := None |} "plumber-7" None
           reported).
  reflexivity.
Defined.

(** A rating of 6 for a completed request is answered 500; a rating of 4 is
    stored. *)
Example rating_out_of_range :
  let fixed := snd (updateServiceRequest offline "uuid-b" (setStatus COMPLETED)
                      reported) in
  http_code (fst (rateServiceRequest_controller offline "uuid-b"
                    {| r_rating := Some 6%float; r_feedback := None |} fixed)) = 500
  /\ http_code (fst (rateServiceRequest_controller offline "uuid-b"
                       {| r_rating := Some 4%float; r_feedback := None |} fixed)) = 200
  /\ http_code (fst (rateServiceRequest_controller offline "uuid-b"
                       {| r_rating := Some 4%float; r_feedback := None |} reported)) = 400.
Proof. vm_compute. repeat split; reflexivity. Qed.

End ServiceRequestFacts.
